(** * track_fish.py: a shallow embedding of the fish tracking script

    The script opens a video source, runs a per-frame pipeline of OpenCV
    calls, counts the contours whose area reaches [--min-area], draws them
    on the frame and writes every frame to an output video.

    The embedding keeps the control flow of [main] as it is written: the
    dispatch on [args.video], the early [sys.exit(1)], the [while True]
    loop with its two [break]s, the [for] loop over the contours and the
    release sequence after the loop.  Calls into the interpreter's Unicode
    tables, into OpenCV and into the outside world (the capture device,
    the keyboard) are parameters; every observable call is recorded in a
    trace of events. *)

From Stdlib Require Import ZArith QArith Qround String Ascii List Bool Lia.
From Stdlib Require Import Decimal DecimalString DecimalNat.
Import ListNotations.

Local Open Scope Z_scope.
Local Open Scope list_scope.

(** ** Python values used by the script *)

Module Py.

(** A [str] is a sequence of Unicode code points. *)
Definition codepoint := N.
Definition str := list codepoint.

(** A source literal made of ASCII characters. *)
Fixpoint lit (s : string) : str :=
  match s with
  | EmptyString => []
  | String a s' => N_of_ascii a :: lit s'
  end.

(** [str(n)], equally [f"{n}"], of a non-negative [int]. *)
Definition of_nat (n : nat) : str :=
  lit (NilEmpty.string_of_uint (Nat.to_uint n)).

(** The two tables of the interpreter's Unicode database that [main]
    consults: [ToDigit] is behind [str.isdigit] (characters whose
    Numeric_Type is Digit or Decimal), [ToDecimalDigit] is behind [int]
    (Numeric_Type Decimal only). *)
Record UnicodeData := {
  ToDecimalDigit : codepoint -> option Z;
  ToDigit : codepoint -> option Z
}.

Definition is_some {A} (o : option A) : bool :=
  match o with Some _ => true | None => false end.

(** [s.isdigit()]: every character is a digit and there is at least one. *)
Definition isdigit (u : UnicodeData) (s : str) : bool :=
  match s with
  | [] => false
  | _ => forallb (fun c => is_some (ToDigit u c)) s
  end.

Inductive exn := ValueError.

(** The most digits [int] converts: the interpreter's default
    ([sys.int_info.default_max_str_digits]), which the script leaves as it
    is. *)
Definition max_str_digits : Z := 4300.

(** [int(s)] for a string without sign, blank or underscore (none of
    them passes [isdigit], the guard in front of the only call): each
    character is turned into its decimal value, a character without one
    raises [ValueError], and so do the empty string and a string of more
    than [max_str_digits] digits, leading zeros counted. *)
Fixpoint int_digits (u : UnicodeData) (acc : Z) (s : str) : exn + Z :=
  match s with
  | [] => inr acc
  | c :: s' =>
      match ToDecimalDigit u c with
      | Some d => int_digits u (10 * acc + d) s'
      | None => inl ValueError
      end
  end.

Definition int (u : UnicodeData) (s : str) : exn + Z :=
  match s with
  | [] => inl ValueError
  | _ =>
      if max_str_digits <? Z.of_nat (length s) then inl ValueError
      else int_digits u 0 s
  end.

(** [int(x)] of a float: truncation towards zero.  A finite float is a
    rational number. *)
Definition int_of_float (x : Q) : Z := Z.quot (Qnum x) (Zpos (Qden x)).

(** [a or b] on integers: [a] unless it is zero. *)
Definition or_int (a b : Z) : Z := if a =? 0 then b else a.

(** [a < b] for a float [a] and an [int] [b]: Python compares the exact
    values. *)
Definition float_lt_int (a : Q) (b : Z) : bool :=
  negb (Qle_bool (inject_Z b) a).

(** The database on the code points below 256: the ASCII digits are
    decimal digits; superscript two, three and one (U+00B2, U+00B3,
    U+00B9) are digits without a decimal value.  Code points from 256 on
    are given no value: the table is only run on Latin-1 strings. *)
Definition latin1 : UnicodeData := {|
  ToDecimalDigit c :=
    if ((48 <=? c) && (c <=? 57))%N then Some (Z.of_N c - 48) else None;
  ToDigit c :=
    if ((48 <=? c) && (c <=? 57))%N then Some (Z.of_N c - 48)
    else if (c =? 178)%N then Some 2
    else if (c =? 179)%N then Some 3
    else if (c =? 185)%N then Some 1
    else None
|}.

End Py.

(** ** Command line *)

(** The namespace returned by [parse_args]. *)
Record Args := {
  video : Py.str;
  out : Py.str;
  min_area : Z;
  debug : bool
}.

(** What [cv2.VideoCapture] is given: a camera index or a path. *)
Inductive Source :=
| Camera (index : Z)
| File (path : Py.str).

(** Lines 24-27: the argument of [cv2.VideoCapture]. *)
Definition select_source (u : Py.UnicodeData) (v : Py.str) : Py.exn + Source :=
  if Py.isdigit u v then
    match Py.int u v with
    | inl e => inl e
    | inr n => inr (Camera n)
    end
  else inr (File v).

(** ** The OpenCV interface *)

Inductive ThresholdType := THRESH_BINARY.
Inductive MorphShape := MORPH_ELLIPSE.
Inductive MorphOp := MORPH_OPEN | MORPH_CLOSE.
Inductive RetrievalMode := RETR_EXTERNAL.
Inductive ApproxMode := CHAIN_APPROX_SIMPLE.
Inductive Font := FONT_HERSHEY_SIMPLEX.

(** The calls of the per-frame pipeline.  The script only composes them;
    what they compute is the library's business. *)
Class OpenCV := {
  Frame : Type;
  Mask : Type;
  Contour : Type;
  BackSub : Type;
  Kernel : Type;
  createBackgroundSubtractorMOG2 : Z -> Z -> bool -> BackSub;
  (* backSub.apply(frame): updates the background model *)
  backSub_apply : BackSub -> Frame -> BackSub * Mask;
  threshold : Mask -> Z -> Z -> ThresholdType -> Mask;
  getStructuringElement : MorphShape -> Z * Z -> Kernel;
  morphologyEx : Mask -> MorphOp -> Kernel -> Z -> Mask;
  findContours : Mask -> RetrievalMode -> ApproxMode -> list Contour;
  contourArea : Contour -> Q;
  boundingRect : Contour -> Z * Z * Z * Z
}.

(** [cv2.VideoWriter_fourcc(c1, c2, c3, c4)]. *)
Definition VideoWriter_fourcc (c1 c2 c3 c4 : ascii) : Z :=
  Z.lor (Z.lor (Z.of_N (N_of_ascii c1)) (Z.shiftl (Z.of_N (N_of_ascii c2)) 8))
        (Z.lor (Z.shiftl (Z.of_N (N_of_ascii c3)) 16)
               (Z.shiftl (Z.of_N (N_of_ascii c4)) 24)).

(** ** Frames, the outside world and the trace *)

Section Script.

Context {cv : OpenCV}.
Variable ucd : Py.UnicodeData.

Definition Point := (Z * Z)%type.
Definition Color := (Z * Z * Z)%type.

(** What [cv2.rectangle] and [cv2.putText] burn into a frame. *)
Inductive Draw :=
| Rectangle (pt1 pt2 : Point) (color : Color) (thickness : Z)
| PutText (text : Py.str) (org : Point) (font : Font) (scale : Q)
          (color : Color) (thickness : Z).

(** A frame array is drawn on in place: the frame as it was read, and the
    drawings made on it so far, oldest first. *)
Record Image := {
  pixels : Frame;
  drawn : list Draw
}.

Definition draw (img : Image) (d : Draw) : Image :=
  {| pixels := pixels img; drawn := drawn img ++ [d] |}.

(** An open attempt: whether it succeeded, the properties [cap.get]
    reports (floats), and the result of the k-th call of [cap.read()],
    [None] when [ret] is false. *)
Record Capture := {
  isOpened : bool;
  CAP_PROP_FRAME_WIDTH : Q;
  CAP_PROP_FRAME_HEIGHT : Q;
  CAP_PROP_FPS : Q;
  read : nat -> option Frame
}.

(** The world: what a source opens to, and the result of the j-th call of
    [cv2.waitKey]. *)
Record World := {
  VideoCapture : Source -> Capture;
  waitKey : nat -> Z
}.

Inductive Shown :=
| ShownImage (img : Image)
| ShownMask (m : Mask).

(** The observable calls of [main], in program order. *)
Inductive Event :=
| EvVideoCapture (src : Source)
| EvPrint (text : Py.str)
| EvVideoWriter (path : Py.str) (fourcc : Z) (fps : Z) (size : Z * Z)
| EvRead (r : option Frame)
| EvWrite (img : Image)
| EvImshow (window : string) (img : Shown)
| EvWaitKey (delay : Z) (key : Z)
| EvCapRelease
| EvOutRelease
| EvDestroyAllWindows.

(** How [main] ends: it returns (exit status 0), [sys.exit(status)], or an
    exception nobody catches. *)
Inductive Outcome :=
| Returned
| SysExit (status : Z)
| Uncaught (e : Py.exn).

Definition exit_status (o : Outcome) : Z :=
  match o with
  | Returned => 0
  | SysExit s => s
  | Uncaught _ => 1
  end.

(** ** The messages *)

Definition msg_cannot_open (v : Py.str) : Py.str :=
  [10060%N] ++ Py.lit " ERROR: Cannot open video source:" ++ Py.lit " " ++ v.

Definition msg_tracking : Py.str :=
  [127909%N] ++ Py.lit " Tracking fish... press [Q] to stop.".

Definition msg_finished (o : Py.str) : Py.str :=
  [9989%N] ++ Py.lit " Tracking finished " ++ [8212%N]
    ++ Py.lit " saved output video to: " ++ o.

(** ** The body of the frame loop *)

(** The local variables of [main] that are alive across iterations. *)
Record Locals := {
  fish_count : nat;
  frame_num : nat;
  backSub : BackSub;
  frame : option Image;
  fgMask : option Mask;
  contours : list Contour
}.

(** Lines 67-74: one round of the [for] loop. *)
Definition mark (m : Z) (cnt : Contour) (acc : nat * Image) : nat * Image :=
  let '(count, img) := acc in
  let area := contourArea cnt in
  if Py.float_lt_int area m then (count, img)
  else
    let count := S count in
    let '(x, y, w, h) := boundingRect cnt in
    let img := draw img (Rectangle (x, y) (x + w, y + h) (0, 255, 0) 2) in
    let img := draw img (PutText (Py.lit "Fish " ++ Py.of_nat count) (x, y - 10)
                           FONT_HERSHEY_SIMPLEX (6 # 10) (255, 255, 255) 2) in
    (count, img).

(** Line 66: [for cnt in contours]. *)
Fixpoint for_contours (m : Z) (cs : list Contour) (acc : nat * Image)
  : nat * Image :=
  match cs with
  | [] => acc
  | cnt :: cs' => for_contours m cs' (mark m cnt acc)
  end.

(** Lines 54-63: from the frame to its contours. *)
Definition foreground (bs : BackSub) (f : Frame) : BackSub * Mask :=
  let '(bs', fg) := backSub_apply bs f in
  let fg := threshold fg 200 255 THRESH_BINARY in
  let kernel := getStructuringElement MORPH_ELLIPSE (5, 5) in
  let fg := morphologyEx fg MORPH_OPEN kernel 2 in
  let fg := morphologyEx fg MORPH_CLOSE kernel 2 in
  (bs', fg).

Definition detect (fg : Mask) : list Contour :=
  findContours fg RETR_EXTERNAL CHAIN_APPROX_SIMPLE.

(** Lines 77-78: the two overlay lines. *)
Definition overlay (img : Image) (fnum count : nat) : Image :=
  let img := draw img (PutText (Py.lit "Frame: " ++ Py.of_nat fnum) (10, 20)
                         FONT_HERSHEY_SIMPLEX (6 # 10) (0, 255, 255) 2) in
  draw img (PutText (Py.lit "Fish detected: " ++ Py.of_nat count) (10, 45)
              FONT_HERSHEY_SIMPLEX (6 # 10) (0, 255, 255) 2).

(** Line 85: [cv2.waitKey(30) & 0xFF in [ord('q'), ord('Q')]]. *)
Definition quit_key (k : Z) : bool :=
  let c := Z.land k 255 in
  (c =? Z.of_N (N_of_ascii "q")) || (c =? Z.of_N (N_of_ascii "Q")).

Inductive Control := Continue | Break.

(** The position in the world: how many times [cap.read()] and
    [cv2.waitKey] have been called. *)
Record Cursor := {
  reads : nat;
  keys : nat
}.

Record Step := {
  events : list Event;
  control : Control;
  cursor : Cursor;
  locals : Locals
}.

(** Lines 48-86: one iteration of [while True]. *)
Definition body (a : Args) (w : World) (cap : Capture) (c : Cursor) (st : Locals)
  : Step :=
  match read cap (reads c) with
  | None =>
      {| events := [EvRead None];
         control := Break;
         cursor := {| reads := S (reads c); keys := keys c |};
         locals := {| fish_count := fish_count st; frame_num := frame_num st;
                      backSub := backSub st; frame := None;
                      fgMask := fgMask st; contours := contours st |} |}
  | Some f =>
      let fnum := S (frame_num st) in
      let '(bs, fg) := foreground (backSub st) f in
      let cs := detect fg in
      let count := 0%nat in
      let '(count, img) :=
        for_contours (min_area a) cs (count, {| pixels := f; drawn := [] |}) in
      let img := overlay img fnum count in
      let st' := {| fish_count := count; frame_num := fnum; backSub := bs;
                    frame := Some img; fgMask := Some fg; contours := cs |} in
      let c' := {| reads := S (reads c); keys := keys c |} in
      if debug a then
        let k := waitKey w (keys c) in
        {| events := [EvRead (Some f); EvWrite img;
                      EvImshow "Fish Tracking" (ShownImage img);
                      EvImshow "Foreground Mask" (ShownMask fg);
                      EvWaitKey 30 k];
           control := if quit_key k then Break else Continue;
           cursor := {| reads := S (reads c); keys := S (keys c) |};
           locals := st' |}
      else
        {| events := [EvRead (Some f); EvWrite img];
           control := Continue;
           cursor := c';
           locals := st' |}
  end.

(** Line 47: [while True], unrolled at most [fuel] times.  The events of
    the iterations that were run are always returned; the locals only when
    a [break] was reached. *)
Fixpoint loop (fuel : nat) (a : Args) (w : World) (cap : Capture)
              (c : Cursor) (st : Locals) : list Event * option Locals :=
  match fuel with
  | O => ([], None)
  | S fuel' =>
      let s := body a w cap c st in
      match control s with
      | Break => (events s, Some (locals s))
      | Continue =>
          let '(evs, r) := loop fuel' a w cap (cursor s) (locals s) in
          (events s ++ evs, r)
      end
  end.

(** ** [main] *)

(** Line 39: [int(cap.get(cv2.CAP_PROP_FPS)) or 30]. *)
Definition writer_fps (cap : Capture) : Z :=
  Py.or_int (Py.int_of_float (CAP_PROP_FPS cap)) 30.

(** Lines 37-38 and 40: the size the writer is created with. *)
Definition writer_size (cap : Capture) : Z * Z :=
  (Py.int_of_float (CAP_PROP_FRAME_WIDTH cap),
   Py.int_of_float (CAP_PROP_FRAME_HEIGHT cap)).

(** Lines 42-43 with the background subtractor of line 34. *)
Definition init_locals : Locals :=
  {| fish_count := 0; frame_num := 0;
     backSub := createBackgroundSubtractorMOG2 500 50 true;
     frame := None; fgMask := None; contours := [] |}.

Definition start : Cursor := {| reads := 0; keys := 0 |}.

(** Lines 36-45: what happens between the open check and the loop. *)
Definition prologue (a : Args) (cap : Capture) : list Event :=
  [EvVideoWriter (out a) (VideoWriter_fourcc "m" "p" "4" "v")
     (writer_fps cap) (writer_size cap);
   EvPrint msg_tracking].

(** Lines 88-93: what happens after the loop. *)
Definition epilogue (a : Args) : list Event :=
  [EvCapRelease; EvOutRelease]
    ++ (if debug a then [EvDestroyAllWindows] else [])
    ++ [EvPrint (msg_finished (out a))].

(** Lines 20-93.  The outcome is [None] when the loop is still running
    after [fuel] iterations. *)
Definition main (fuel : nat) (a : Args) (w : World)
  : list Event * option Outcome :=
  match select_source ucd (video a) with
  | inl e => ([], Some (Uncaught e))
  | inr src =>
      let cap := VideoCapture w src in
      if negb (isOpened cap) then
        ([EvVideoCapture src; EvPrint (msg_cannot_open (video a))],
         Some (SysExit 1))
      else
        let '(evs, r) := loop fuel a w cap start init_locals in
        match r with
        | None => (EvVideoCapture src :: prologue a cap ++ evs, None)
        | Some _ =>
            (EvVideoCapture src :: prologue a cap ++ evs ++ epilogue a,
             Some Returned)
        end
  end.

End Script.

(** ** Notions used to state the properties *)

Section Notions.

Context {cv : OpenCV}.

(** The area of the contour is at least [m]. *)
Definition reaches (m : Z) (cnt : Contour) : bool :=
  Qle_bool (inject_Z m) (contourArea cnt).

(** The rectangle and the label of the fish numbered [n]. *)
Definition box (n : nat) (cnt : Contour) : list Draw :=
  let '(x, y, w, h) := boundingRect cnt in
  [Rectangle (x, y) (x + w, y + h) (0, 255, 0) 2;
   PutText (Py.lit "Fish " ++ Py.of_nat n) (x, y - 10)
     FONT_HERSHEY_SIMPLEX (6 # 10) (255, 255, 255) 2].

(** The drawings for a list of fish, numbered from [n + 1]. *)
Fixpoint boxes (n : nat) (fish : list Contour) : list Draw :=
  match fish with
  | [] => []
  | cnt :: rest => box (S n) cnt ++ boxes (S n) rest
  end.

(** The contours of frame [f] under the background model [bs] that reach
    the threshold of the command line. *)
Definition fish_in (a : Args) (bs : BackSub) (f : Frame) : list Contour :=
  filter (reaches (min_area a)) (detect (snd (foreground bs f))).

(** The two overlay lines. *)
Definition banner (fnum count : nat) : list Draw :=
  [PutText (Py.lit "Frame: " ++ Py.of_nat fnum) (10, 20)
     FONT_HERSHEY_SIMPLEX (6 # 10) (0, 255, 255) 2;
   PutText (Py.lit "Fish detected: " ++ Py.of_nat count) (10, 45)
     FONT_HERSHEY_SIMPLEX (6 # 10) (0, 255, 255) 2].

(** The images handed to [out.write], in order. *)
Fixpoint writes (t : list Event) : list Image :=
  match t with
  | [] => []
  | EvWrite img :: t' => img :: writes t'
  | _ :: t' => writes t'
  end.

(** The frames [cap.read()] delivered, in order. *)
Fixpoint frames_read (t : list Event) : list Frame :=
  match t with
  | [] => []
  | EvRead (Some f) :: t' => f :: frames_read t'
  | _ :: t' => frames_read t'
  end.

(** The calls of [cv2.waitKey] and [cv2.imshow]. *)
Definition is_interactive (e : Event) : bool :=
  match e with
  | EvWaitKey _ _ | EvImshow _ _ => true
  | _ => false
  end.

Definition is_failed_read (e : Event) : bool :=
  match e with
  | EvRead None => true
  | _ => false
  end.

(** Which handles are open. *)
Record Held := {
  capture_open : bool;
  writer_open : bool
}.

Definition nothing_held : Held :=
  {| capture_open := false; writer_open := false |}.

(** The effect of one call on the open handles.  A capture is open after
    [cv2.VideoCapture] when the open attempt succeeded; a writer is open
    once it is created. *)
Definition track (w : World) (h : Held) (e : Event) : Held :=
  match e with
  | EvVideoCapture src =>
      {| capture_open := isOpened (VideoCapture w src);
         writer_open := writer_open h |}
  | EvVideoWriter _ _ _ _ =>
      {| capture_open := capture_open h; writer_open := true |}
  | EvCapRelease =>
      {| capture_open := false; writer_open := writer_open h |}
  | EvOutRelease =>
      {| capture_open := capture_open h; writer_open := false |}
  | _ => h
  end.


(** Whether iteration [i] of the loop goes on to the next one, in a run
    that started at the beginning of the stream. *)
Definition stops (a : Args) (w : World) (cap : Capture) (i : nat) : bool :=
  match read cap i with
  | None => true
  | Some _ => debug a && quit_key (waitKey w i)
  end.

(** The state in front of iteration [i], were no iteration to break. *)
Fixpoint state_at (a : Args) (w : World) (cap : Capture) (i : nat)
  : Cursor * Locals :=
  match i with
  | O => (start, init_locals)
  | S i' =>
      let '(c, st) := state_at a w cap i' in
      let s := body a w cap c st in
      (cursor s, locals s)
  end.

(** Iteration [i] of such a run. *)
Definition iteration (a : Args) (w : World) (cap : Capture) (i : nat) : Step :=
  let '(c, st) := state_at a w cap i in body a w cap c st.

(** The events of iterations [i], ..., [i + n - 1]. *)
Fixpoint iterations (a : Args) (w : World) (cap : Capture) (i n : nat)
  : list Event :=
  match n with
  | O => []
  | S n' => events (iteration a w cap i) ++ iterations a w cap (S i) n'
  end.

(** The frame [f], read as frame number [fnum] under the background model
    [bs], as it is written out: a box and a label for each fish, numbered
    from 1, then the overlay. *)
Definition annotated (a : Args) (bs : BackSub) (f : Frame) (fnum : nat) : Image :=
  {| pixels := f;
     drawn := boxes 0 (fish_in a bs f)
                ++ banner fnum (length (fish_in a bs f)) |}.

(** The calls made from inside the loop. *)
Definition is_loop_event (e : Event) : bool :=
  match e with
  | EvRead _ | EvWrite _ | EvImshow _ _ | EvWaitKey _ _ => true
  | _ => false
  end.

(** What the k-th read delivers, as a list of at most one frame. *)
Definition delivered (cap : Capture) (k : nat) : list Frame :=
  match read cap k with
  | Some f => [f]
  | None => []
  end.

(** The capture [cap] with its stream ending in front of read [n]: that
    read and all later ones fail. *)
Definition end_of_stream_at (n : nat) (cap : Capture) : Capture :=
  {| isOpened := isOpened cap;
     CAP_PROP_FRAME_WIDTH := CAP_PROP_FRAME_WIDTH cap;
     CAP_PROP_FRAME_HEIGHT := CAP_PROP_FRAME_HEIGHT cap;
     CAP_PROP_FPS := CAP_PROP_FPS cap;
     read k := if (k <? n)%nat then read cap k else None |}.

(** The world in which every stream ends in front of read [n]. *)
Definition cut_at (n : nat) (w : World) : World :=
  {| VideoCapture src := end_of_stream_at n (VideoCapture w src);
     waitKey := waitKey w |}.

(** The images shown in the preview window, in order. *)
Fixpoint previews (t : list Event) : list Image :=
  match t with
  | [] => []
  | EvImshow _ (ShownImage img) :: t' => img :: previews t'
  | _ :: t' => previews t'
  end.

(** The delays of the calls of [cv2.waitKey], in order. *)
Fixpoint key_polls (t : list Event) : list Z :=
  match t with
  | [] => []
  | EvWaitKey d _ :: t' => d :: key_polls t'
  | _ :: t' => key_polls t'
  end.

(** What is printed, in order. *)
Fixpoint prints (t : list Event) : list Py.str :=
  match t with
  | [] => []
  | EvPrint text :: t' => text :: prints t'
  | _ :: t' => prints t'
  end.

(** Whether a call is in order given the handles that are open: a read
    needs the capture open and a write the writer; a handle is released
    only while open and created only while not; the writer is created on
    an open capture. *)
Definition allowed (h : Held) (e : Event) : bool :=
  match e with
  | EvVideoCapture _ => negb (capture_open h)
  | EvVideoWriter _ _ _ _ => capture_open h && negb (writer_open h)
  | EvRead _ => capture_open h
  | EvWrite _ => writer_open h
  | EvCapRelease => capture_open h
  | EvOutRelease => writer_open h
  | _ => true
  end.

(** Every call of the trace is in order, from the handles [h] on. *)
Fixpoint in_order (w : World) (h : Held) (t : list Event) : bool :=
  match t with
  | [] => true
  | e :: t' => allowed h e && in_order w (track w h e) t'
  end.

(** What the preview shows and how often the keyboard is polled, in terms
    of the frames written. *)
Definition preview_follows_writes (a : Args) (t : list Event) : Prop :=
  previews t = (if debug a then writes t else [])
  /\ key_polls t = (if debug a then repeat 30 (length (writes t)) else []).

(** The database gives the ASCII digits their values. *)
Definition ascii_digits (u : Py.UnicodeData) : Prop :=
  forall d : N,
    (d < 10)%N ->
    Py.ToDecimalDigit u (48 + d)%N = Some (Z.of_N d)
    /\ Py.ToDigit u (48 + d)%N <> None.

(** Every decimal value of the database is one of 0, ..., 9. *)
Definition decimal_range (u : Py.UnicodeData) : Prop :=
  forall c d, Py.ToDecimalDigit u c = Some d -> 0 <= d <= 9.

(** The text [t] ends with [s]. *)
Definition ends_with (s t : Py.str) : Prop := exists p, t = p ++ s.

End Notions.

(** ** A small instance to run the model on *)

Module Demo.

(** A blob is an area and a bounding rectangle; a frame is the list of
    the blobs that move in it. *)
Definition Blob := (Q * (Z * Z * Z * Z))%type.

#[export] Instance cv : OpenCV := {|
  Frame := list Blob;
  Mask := list Blob;
  Contour := Blob;
  BackSub := nat;
  Kernel := unit;
  createBackgroundSubtractorMOG2 _ _ _ := O;
  backSub_apply bs f := (S bs, f);
  threshold m _ _ _ := m;
  getStructuringElement _ _ := tt;
  morphologyEx m _ _ _ := m;
  findContours m _ _ := m;
  contourArea := fst;
  boundingRect := snd
|}.

Definition small : Blob := (799 # 1, (1, 2, 3, 4)).
Definition exact : Blob := (800 # 1, (5, 60, 7, 8)).
Definition large : Blob := (1801 # 2, (9, 10, 11, 12)).

Definition frame0 : list Blob := [small; exact; large].
Definition frame1 : list Blob := [large].

(** A file of two frames, 640 by 480, whose frame rate is not known. *)
Definition clip : Capture := {|
  isOpened := true;
  CAP_PROP_FRAME_WIDTH := 640 # 1;
  CAP_PROP_FRAME_HEIGHT := 480 # 1;
  CAP_PROP_FPS := 0 # 1;
  read k := match k with O => Some frame0 | 1%nat => Some frame1 | _ => None end
|}.

(** The same frames with a failed read between them. *)
Definition glitch : Capture := {|
  isOpened := true;
  CAP_PROP_FRAME_WIDTH := 640 # 1;
  CAP_PROP_FRAME_HEIGHT := 480 # 1;
  CAP_PROP_FPS := 2997 # 100;
  read k := match k with O => Some frame0 | 2%nat => Some frame1 | _ => None end
|}.

(** A camera that delivers a frame at every read. *)
Definition camera : Capture := {|
  isOpened := true;
  CAP_PROP_FRAME_WIDTH := 640 # 1;
  CAP_PROP_FRAME_HEIGHT := 480 # 1;
  CAP_PROP_FPS := 30 # 1;
  read _ := Some frame1
|}.

Definition missing : Capture := {|
  isOpened := false;
  CAP_PROP_FRAME_WIDTH := 0 # 1;
  CAP_PROP_FRAME_HEIGHT := 0 # 1;
  CAP_PROP_FPS := 0 # 1;
  read _ := None
|}.

(** Camera 0 is [camera]; the files "a" and "g" are [clip] and [glitch];
    nothing else opens.  No key is ever pressed ([waitKey] returns -1),
    except [q] at the second call. *)
Definition world : World := {|
  VideoCapture src :=
    match src with
    | Camera 0 => camera
    | File [97%N] => clip
    | File [103%N] => glitch
    | _ => missing
    end;
  waitKey j := match j with 1%nat => 113 | _ => -1 end
|}.

(** Locals left over from a frame with seven fish. *)
Definition stale : Locals :=
  @Build_Locals cv 7 0 O None None [].

Definition args (v : string) (d : bool) : Args :=
  {| video := Py.lit v; out := Py.lit "fish_tracked.mp4";
     min_area := 800; debug := d |}.

End Demo.

(** ** Properties *)

(** *** The area test *)

Lemma float_lt_int_true (x : Q) (m : Z) :
  Py.float_lt_int x m = true <-> (x < inject_Z m)%Q.
Proof.
  unfold Py.float_lt_int. rewrite negb_true_iff.
  split; intro H.
  - apply Qnot_le_lt. intro Hle. apply Qle_bool_iff in Hle. congruence.
  - destruct (Qle_bool (inject_Z m) x) eqn:E; [|reflexivity].
    apply Qle_bool_iff in E. exfalso. exact (Qlt_not_le _ _ H E).
Qed.

Lemma float_lt_int_false (x : Q) (m : Z) :
  Py.float_lt_int x m = false <-> (inject_Z m <= x)%Q.
Proof.
  unfold Py.float_lt_int. rewrite negb_false_iff. apply Qle_bool_iff.
Qed.

Section Contours.

Context {cv : OpenCV}.

Lemma reaches_le (m : Z) (cnt : Contour) :
  reaches m cnt = true <-> (inject_Z m <= contourArea cnt)%Q.
Proof. apply Qle_bool_iff. Qed.

Lemma reaches_lt (m : Z) (cnt : Contour) :
  reaches m cnt = false <-> (contourArea cnt < inject_Z m)%Q.
Proof.
  unfold reaches. rewrite <- float_lt_int_true.
  unfold Py.float_lt_int. apply iff_sym, negb_true_iff.
Qed.

Lemma box_not_nil (n : nat) (cnt : Contour) : box n cnt <> [].
Proof. unfold box. destruct (boundingRect cnt) as [[[x y] w] h]. discriminate. Qed.

Lemma mark_counted (m : Z) (cnt : Contour) (n : nat) (img : Image) :
  reaches m cnt = true ->
  mark m cnt (n, img)
  = (S n, {| pixels := pixels img; drawn := drawn img ++ box (S n) cnt |}).
Proof.
  intro H. unfold mark, reaches, Py.float_lt_int, box in *. rewrite H. simpl.
  destruct (boundingRect cnt) as [[[x y] w] h]. unfold draw. simpl.
  rewrite <- app_assoc. reflexivity.
Qed.

Lemma mark_skipped (m : Z) (cnt : Contour) (acc : nat * Image) :
  reaches m cnt = false -> mark m cnt acc = acc.
Proof.
  intro H. destruct acc as [n img].
  unfold mark, reaches, Py.float_lt_int in *. rewrite H. reflexivity.
Qed.

(** The [for] loop in closed form. *)
Lemma for_contours_filter (m : Z) (cs : list Contour) :
  forall (n : nat) (img : Image),
    for_contours m cs (n, img)
    = ((n + length (filter (reaches m) cs))%nat,
       {| pixels := pixels img;
          drawn := drawn img ++ boxes n (filter (reaches m) cs) |}).
Proof.
  induction cs as [|cnt cs IH]; intros n img; cbn [for_contours filter].
  - cbn. rewrite Nat.add_0_r, app_nil_r. destruct img; reflexivity.
  - destruct (reaches m cnt) eqn:E.
    + rewrite (mark_counted _ _ _ _ E), IH. cbn [pixels drawn length boxes].
      rewrite <- app_assoc, Nat.add_succ_r. reflexivity.
    + rewrite (mark_skipped _ _ _ E). apply IH.
Qed.

(** C1.  A contour is counted as a fish (the count goes up by one and the
    frame receives its rectangle and its label) if and only if its area is
    at least [--min-area]; it leaves the count and the frame untouched if
    and only if its area is below; and over a whole frame the count and the
    drawings are those of exactly the contours that reach the threshold. *)
Theorem min_area_cutoff (m : Z) :
  (forall (cnt : Contour) (n : nat) (img : Image),
      (inject_Z m <= contourArea cnt)%Q
      <-> mark m cnt (n, img)
          = (S n, {| pixels := pixels img;
                     drawn := drawn img ++ box (S n) cnt |}))
  /\ (forall (cnt : Contour) (n : nat) (img : Image),
         (contourArea cnt < inject_Z m)%Q <-> mark m cnt (n, img) = (n, img))
  /\ (forall (cs : list Contour) (n : nat) (img : Image),
         for_contours m cs (n, img)
         = ((n + length (filter (reaches m) cs))%nat,
            {| pixels := pixels img;
               drawn := drawn img ++ boxes n (filter (reaches m) cs) |}))
  /\ (forall (cs : list Contour) (cnt : Contour),
         In cnt (filter (reaches m) cs)
         <-> In cnt cs /\ (inject_Z m <= contourArea cnt)%Q).
Proof.
  split; [|split; [|split]].
  - intros cnt n img. split; intro H.
    + apply mark_counted, reaches_le, H.
    + destruct (reaches m cnt) eqn:E.
      * apply reaches_le, E.
      * rewrite (mark_skipped _ _ _ E) in H. inversion H. lia.
  - intros cnt n img. split; intro H.
    + apply mark_skipped, reaches_lt, H.
    + destruct (reaches m cnt) eqn:E.
      * rewrite (mark_counted _ _ _ _ E) in H. inversion H. lia.
      * apply reaches_lt, E.
  - intros cs n img. apply for_contours_filter.
  - intros cs cnt. rewrite filter_In, reaches_le. reflexivity.
Qed.

End Contours.

(** *** One iteration *)

Section Iteration.

Context {cv : OpenCV}.
Variables (a : Args) (w : World) (cap : Capture).

(** An iteration whose read succeeds, in closed form. *)
Lemma body_read_ok (c : Cursor) (st : Locals) (f : Frame) :
  read cap (reads c) = Some f ->
  body a w cap c st
  = {| events :=
         EvRead (Some f)
         :: EvWrite (annotated a (backSub st) f (S (frame_num st)))
         :: (if debug a then
               [EvImshow "Fish Tracking"
                  (ShownImage (annotated a (backSub st) f (S (frame_num st))));
                EvImshow "Foreground Mask"
                  (ShownMask (snd (foreground (backSub st) f)));
                EvWaitKey 30 (waitKey w (keys c))]
             else []);
       control :=
         if debug a && quit_key (waitKey w (keys c)) then Break else Continue;
       cursor := {| reads := S (reads c);
                    keys := if debug a then S (keys c) else keys c |};
       locals :=
         {| fish_count := length (fish_in a (backSub st) f);
            frame_num := S (frame_num st);
            backSub := fst (foreground (backSub st) f);
            frame := Some (annotated a (backSub st) f (S (frame_num st)));
            fgMask := Some (snd (foreground (backSub st) f));
            contours := detect (snd (foreground (backSub st) f)) |} |}.
Proof.
  intro H. unfold body, annotated, fish_in. rewrite H.
  destruct (foreground (backSub st) f) as [bs fg]. cbn [fst snd].
  rewrite for_contours_filter. cbn [pixels drawn Nat.add app].
  unfold overlay, draw, banner. cbn [pixels drawn].
  rewrite <- app_assoc. cbn [app].
  destruct (debug a); cbn [andb]; reflexivity.
Qed.

(** An iteration whose read fails. *)
Lemma body_read_failed (c : Cursor) (st : Locals) :
  read cap (reads c) = None ->
  body a w cap c st
  = {| events := [EvRead None];
       control := Break;
       cursor := {| reads := S (reads c); keys := keys c |};
       locals := {| fish_count := fish_count st; frame_num := frame_num st;
                    backSub := backSub st; frame := None;
                    fgMask := fgMask st; contours := contours st |} |}.
Proof. intro H. unfold body. rewrite H. reflexivity. Qed.

(** A property of every event of every iteration holds of every event of
    the loop. *)
Lemma loop_Forall (P : Event -> Prop) :
  (forall c st, Forall P (events (body a w cap c st))) ->
  forall fuel c st, Forall P (fst (loop fuel a w cap c st)).
Proof.
  intros HP fuel. induction fuel as [|fuel IH]; intros c st; cbn [loop].
  - constructor.
  - destruct (control (body a w cap c st)).
    + specialize (IH (cursor (body a w cap c st)) (locals (body a w cap c st))).
      destruct (loop fuel a w cap _ _) as [evs r]. cbn [fst] in *.
      apply Forall_app. split; [apply HP | exact IH].
    + apply HP.
Qed.

(** The cursor in front of iteration [i]. *)
Lemma reads_state_at (i : nat) : reads (fst (state_at a w cap i)) = i.
Proof.
  induction i as [|i IH]; [reflexivity|]. cbn [state_at].
  destruct (state_at a w cap i) as [c st]. cbn [fst] in *.
  unfold body. destruct (read cap (reads c)).
  - destruct (foreground (backSub st) f) as [bs fg].
    destruct (for_contours _ _ _) as [n img].
    destruct (debug a); cbn; congruence.
  - cbn. congruence.
Qed.

(** While no iteration has stopped, the frame number is the number of
    iterations, and under [--debug] so is the number of [waitKey] calls. *)
Lemma state_at_running (i : nat) :
  (forall j, (j < i)%nat -> stops a w cap j = false) ->
  frame_num (snd (state_at a w cap i)) = i
  /\ (debug a = true -> keys (fst (state_at a w cap i)) = i).
Proof.
  induction i as [|i IH]; intro H; [split; reflexivity|].
  destruct IH as [IHf IHk]; [intros j Hj; apply H; lia|].
  assert (Hi : stops a w cap i = false) by (apply H; lia).
  pose proof (reads_state_at i) as Hr.
  cbn [state_at]. destruct (state_at a w cap i) as [c st]. cbn [fst snd] in *.
  unfold stops in Hi. destruct (read cap i) as [f|] eqn:E; [|discriminate].
  rewrite <- Hr in E. rewrite (body_read_ok _ _ _ E). cbn.
  split; [congruence|]. intro Hd. rewrite Hd. rewrite (IHk Hd). reflexivity.
Qed.

(** Whether iteration [i] breaks, in a run that has come that far. *)
Lemma control_iteration (i : nat) :
  (forall j, (j < i)%nat -> stops a w cap j = false) ->
  control (iteration a w cap i)
  = if stops a w cap i then Break else Continue.
Proof.
  intro H. destruct (state_at_running i H) as [_ Hk].
  pose proof (reads_state_at i) as Hr.
  unfold iteration, stops. destruct (state_at a w cap i) as [c st].
  cbn [fst snd] in *. destruct (read cap i) as [f|] eqn:E; rewrite <- Hr in E.
  - rewrite (body_read_ok _ _ _ E). cbn [control].
    destruct (debug a); [|reflexivity]. rewrite (Hk eq_refl). reflexivity.
  - rewrite (body_read_failed _ _ E). reflexivity.
Qed.

(** The loop, from the state in front of iteration [i], while no iteration
    breaks. *)
Lemma loop_running (n : nat) :
  forall i,
    (forall j, (j < n)%nat -> control (iteration a w cap (i + j)) = Continue) ->
    loop n a w cap (fst (state_at a w cap i)) (snd (state_at a w cap i))
    = (iterations a w cap i n, None).
Proof.
  induction n as [|n IH]; intros i H; [reflexivity|].
  cbn [loop iterations].
  pose proof (H O ltac:(lia)) as H0. rewrite Nat.add_0_r in H0.
  unfold iteration in *. fold (iteration a w cap) in *.
  specialize (IH (S i)). cbn [state_at] in IH.
  destruct (state_at a w cap i) as [c st]. cbn [fst snd] in *.
  rewrite H0. rewrite IH; [reflexivity|].
  intros j Hj. specialize (H (S j) ltac:(lia)).
  rewrite Nat.add_succ_r in H. exact H.
Qed.

(** The loop up to the first iteration that breaks. *)
Lemma loop_breaks (n : nat) :
  forall i fuel,
    (forall j, (j < n)%nat -> control (iteration a w cap (i + j)) = Continue) ->
    control (iteration a w cap (i + n)) = Break ->
    (n < fuel)%nat ->
    loop fuel a w cap (fst (state_at a w cap i)) (snd (state_at a w cap i))
    = (iterations a w cap i (S n), Some (locals (iteration a w cap (i + n)))).
Proof.
  induction n as [|n IH]; intros i fuel H Hb Hf;
    (destruct fuel as [|fuel]; [lia|]); cbn [loop iterations].
  - rewrite Nat.add_0_r in *. unfold iteration in *.
    destruct (state_at a w cap i) as [c st]. cbn [fst snd].
    rewrite Hb, app_nil_r. reflexivity.
  - pose proof (H O ltac:(lia)) as H0. rewrite Nat.add_0_r in H0.
    specialize (IH (S i) fuel). cbn [state_at] in IH.
    unfold iteration in H0 |- *. fold (iteration a w cap) in *.
    destruct (state_at a w cap i) as [c st]. cbn [fst snd] in *.
    rewrite H0. rewrite IH.
    + rewrite Nat.add_succ_r. reflexivity.
    + intros j Hj. specialize (H (S j) ltac:(lia)).
      rewrite Nat.add_succ_r in H. exact H.
    + rewrite Nat.add_succ_r in Hb. exact Hb.
    + lia.
Qed.

End Iteration.

(** *** The whole run *)

Section Program.

Context {cv : OpenCV}.
Variable ucd : Py.UnicodeData.
Variables (a : Args) (w : World).

Lemma writes_app (t1 t2 : list Event) :
  writes (t1 ++ t2) = writes t1 ++ writes t2.
Proof.
  induction t1 as [|e t1 IH]; [reflexivity|].
  destruct e; simpl; rewrite ?IH; reflexivity.
Qed.

Lemma frames_read_app (t1 t2 : list Event) :
  frames_read (t1 ++ t2) = frames_read t1 ++ frames_read t2.
Proof.
  induction t1 as [|e t1 IH]; [reflexivity|].
  destruct e as [| | |[f|]| | | | | |]; simpl; rewrite ?IH; reflexivity.
Qed.

(** The events of an iteration, by cases. *)
Lemma body_events (cap : Capture) (c : Cursor) (st : Locals) :
  (read cap (reads c) = None /\ events (body a w cap c st) = [EvRead None])
  \/ (exists f rest,
         read cap (reads c) = Some f
         /\ events (body a w cap c st)
            = EvRead (Some f)
              :: EvWrite (annotated a (backSub st) f (S (frame_num st)))
              :: rest
         /\ Forall (fun e => is_interactive e = true) rest
         /\ (debug a = false -> rest = [])).
Proof.
  destruct (read cap (reads c)) as [f|] eqn:E.
  - right. exists f. rewrite (body_read_ok _ _ _ _ _ _ E). cbn [events].
    eexists. split; [reflexivity|]. split; [reflexivity|].
    destruct (debug a); split; try discriminate;
      repeat constructor.
  - left. rewrite (body_read_failed _ _ _ _ _ E). split; reflexivity.
Qed.

(** Every frame read is written once, with its drawings. *)
Lemma loop_writes_frames_read (cap : Capture) (fuel : nat) :
  forall c st,
    map pixels (writes (fst (loop fuel a w cap c st)))
    = frames_read (fst (loop fuel a w cap c st)).
Proof.
  assert (Hrest : forall rest, Forall (fun e => is_interactive e = true) rest ->
                               writes rest = [] /\ frames_read rest = []).
  { induction 1 as [|e rest He _ [IH1 IH2]]; [split; reflexivity|].
    destruct e; try discriminate; split; assumption. }
  assert (Hbody : forall c st,
             map pixels (writes (events (body a w cap c st)))
             = frames_read (events (body a w cap c st))).
  { intros c st.
    destruct (body_events cap c st) as [[_ ->]|(f & rest & _ & -> & Hi & _)];
      [reflexivity|].
    cbn [writes frames_read map]. destruct (Hrest _ Hi) as [-> ->]. reflexivity. }
  induction fuel as [|fuel IH]; intros c st; cbn [loop]; [reflexivity|].
  destruct (control (body a w cap c st)); [|apply Hbody].
  specialize (IH (cursor (body a w cap c st)) (locals (body a w cap c st))).
  destruct (loop fuel a w cap _ _) as [evs r]. cbn [fst] in *.
  rewrite writes_app, frames_read_app, map_app, Hbody, IH. reflexivity.
Qed.

(** The k-th image written by the loop is the k-th frame read from where
    the loop starts, annotated with the frame number [k] steps on. *)
Lemma loop_nth_write (cap : Capture) (fuel : nat) :
  forall c st k img,
    nth_error (writes (fst (loop fuel a w cap c st))) k = Some img ->
    exists bs f,
      read cap (reads c + k) = Some f
      /\ img = annotated a bs f (S (frame_num st + k)).
Proof.
  induction fuel as [|fuel IH]; intros c st k img; cbn [loop].
  - destruct k; discriminate.
  - destruct (read cap (reads c)) as [f|] eqn:E.
    + rewrite (body_read_ok _ _ _ _ _ _ E). cbn [control events cursor locals].
      set (st' := Build_Locals _ _ _ _ _ _).
      set (c' := Build_Cursor _ _).
      set (dbg := if debug a then _ else []).
      assert (Hdbg : writes dbg = []) by (subst dbg; destruct (debug a); reflexivity).
      destruct (if debug a && quit_key (waitKey w (keys c)) then Break else Continue).
      * specialize (IH c' st').
        destruct (loop fuel a w cap c' st') as [evs r]. cbn [fst] in *.
        change (EvRead (Some f) :: EvWrite ?i :: dbg)
          with ([EvRead (Some f); EvWrite i] ++ dbg).
        rewrite !writes_app, Hdbg. cbn [writes app].
        destruct k as [|k]; cbn [nth_error].
        -- intro H. inversion H. exists (backSub st), f.
           rewrite !Nat.add_0_r. split; [exact E | reflexivity].
        -- intro H. destruct (IH _ _ H) as (bs & f' & Hr & Hi).
           exists bs, f'. subst c' st'. cbn [reads frame_num] in *.
           rewrite !Nat.add_succ_r. split; assumption.
      * cbn [fst]. change (EvRead (Some f) :: EvWrite ?i :: dbg)
          with ([EvRead (Some f); EvWrite i] ++ dbg).
        rewrite !writes_app, Hdbg. cbn [writes app].
        destruct k as [|k]; cbn [nth_error].
        -- intro H. inversion H. exists (backSub st), f.
           rewrite !Nat.add_0_r. split; [exact E | reflexivity].
        -- destruct k; discriminate.
    + rewrite (body_read_failed _ _ _ _ _ E). cbn [control events fst writes].
      destruct k; discriminate.
Qed.

(** The source does not open. *)
Lemma main_not_opened (src : Source) (fuel : nat) :
  select_source ucd (video a) = inr src ->
  isOpened (VideoCapture w src) = false ->
  main ucd fuel a w
  = ([EvVideoCapture src; EvPrint (msg_cannot_open (video a))],
     Some (SysExit 1)).
Proof. intros Hs Ho. unfold main. rewrite Hs, Ho. reflexivity. Qed.

(** The source opens: [main] around the loop. *)
Lemma main_opened (src : Source) (fuel : nat) :
  select_source ucd (video a) = inr src ->
  isOpened (VideoCapture w src) = true ->
  main ucd fuel a w
  = match snd (loop fuel a w (VideoCapture w src) start init_locals) with
    | None =>
        (EvVideoCapture src :: prologue a (VideoCapture w src)
           ++ fst (loop fuel a w (VideoCapture w src) start init_locals),
         None)
    | Some _ =>
        (EvVideoCapture src :: prologue a (VideoCapture w src)
           ++ fst (loop fuel a w (VideoCapture w src) start init_locals)
           ++ epilogue a,
         Some Returned)
    end.
Proof.
  intros Hs Ho. unfold main. rewrite Hs, Ho. cbn [negb].
  destruct (loop fuel a w (VideoCapture w src) start init_locals) as [evs r].
  reflexivity.
Qed.

(** Within [fuel] iterations either some iteration is the first to stop,
    or none stops. *)
Lemma stop_within (cap : Capture) (fuel : nat) :
  (exists n, (n < fuel)%nat /\ stops a w cap n = true
             /\ forall j, (j < n)%nat -> stops a w cap j = false)
  \/ (forall j, (j < fuel)%nat -> stops a w cap j = false).
Proof.
  induction fuel as [|fuel [(n & Hn & Hs & Hb)|IH]].
  - right. intros j Hj. lia.
  - left. exists n. repeat split; [lia | assumption | assumption].
  - destruct (stops a w cap fuel) eqn:E.
    + left. exists fuel. repeat split; [lia | assumption | assumption].
    + right. intros j Hj. destruct (Nat.eq_dec j fuel) as [->|Hne];
        [assumption | apply IH; lia].
Qed.

(** The loop of a run that stops first at iteration [n]. *)
Lemma loop_stops_at (cap : Capture) (n fuel : nat) :
  (forall j, (j < n)%nat -> stops a w cap j = false) ->
  stops a w cap n = true ->
  (n < fuel)%nat ->
  loop fuel a w cap start init_locals
  = (iterations a w cap 0 (S n), Some (locals (iteration a w cap n))).
Proof.
  intros Hb Hs Hf.
  apply (loop_breaks a w cap n 0 fuel).
  - intros j Hj. cbn [Nat.add]. rewrite control_iteration.
    + rewrite (Hb j Hj). reflexivity.
    + intros i Hi. apply Hb. lia.
  - cbn [Nat.add]. rewrite (control_iteration _ _ _ _ Hb), Hs. reflexivity.
  - exact Hf.
Qed.

(** The loop of a run in which none of the first [n] iterations stops. *)
Lemma loop_goes_on (cap : Capture) (n : nat) :
  (forall j, (j < n)%nat -> stops a w cap j = false) ->
  loop n a w cap start init_locals = (iterations a w cap 0 n, None).
Proof.
  intro Hb. apply (loop_running a w cap n 0).
  intros j Hj. cbn [Nat.add]. rewrite control_iteration.
  - rewrite (Hb j Hj). reflexivity.
  - intros i Hi. apply Hb. lia.
Qed.

(** [main] returns within [fuel] iterations exactly when one of them
    stops. *)
Lemma main_returns_iff (src : Source) (fuel : nat) :
  select_source ucd (video a) = inr src ->
  isOpened (VideoCapture w src) = true ->
  (snd (main ucd fuel a w) = Some Returned
   <-> exists n, (n < fuel)%nat /\ stops a w (VideoCapture w src) n = true)
  /\ (snd (main ucd fuel a w) = None
      <-> forall n, (n < fuel)%nat -> stops a w (VideoCapture w src) n = false).
Proof.
  intros Hs Ho. rewrite (main_opened _ _ Hs Ho).
  destruct (stop_within (VideoCapture w src) fuel) as [(n & Hn & Hst & Hb)|Hb].
  - rewrite (loop_stops_at _ _ _ Hb Hst Hn). cbn [snd]. split; split.
    + intros _. exists n. split; assumption.
    + reflexivity.
    + discriminate.
    + intro H. rewrite (H n Hn) in Hst. discriminate.
  - rewrite (loop_goes_on _ _ Hb). cbn [snd]. split; split.
    + discriminate.
    + intros (n & Hn & Hst). rewrite (Hb n Hn) in Hst. discriminate.
    + intros _. exact Hb.
    + reflexivity.
Qed.

End Program.

(** *** Shape of the trace *)

Section Trace.

Context {cv : OpenCV}.
Variables (a : Args) (w : World) (cap : Capture).

Lemma body_loop_events (c : Cursor) (st : Locals) :
  Forall (fun e => is_loop_event e = true) (events (body a w cap c st)).
Proof.
  destruct (body_events a w cap c st) as [[_ ->]|(f & rest & _ & -> & Hi & _)].
  - repeat constructor.
  - do 2 (constructor; [reflexivity|]).
    eapply Forall_impl; [|exact Hi]. intros [] H; try discriminate; reflexivity.
Qed.

Lemma loop_events (fuel : nat) (c : Cursor) (st : Locals) :
  Forall (fun e => is_loop_event e = true) (fst (loop fuel a w cap c st)).
Proof. apply loop_Forall. apply body_loop_events. Qed.


(** A failed read is the last event of the loop, and the loop has ended. *)
Lemma loop_failed_read_last (fuel : nat) :
  forall c st,
    In (EvRead None) (fst (loop fuel a w cap c st)) ->
    snd (loop fuel a w cap c st) <> None
    /\ exists t, fst (loop fuel a w cap c st) = t ++ [EvRead None].
Proof.
  induction fuel as [|fuel IH]; intros c st; cbn [loop]; [intros []|].
  assert (Hrest : forall rest, Forall (fun e => is_interactive e = true) rest ->
                               ~ In (EvRead None) rest).
  { intros rest Hf Hin. rewrite Forall_forall in Hf.
    specialize (Hf _ Hin). discriminate. }
  destruct (body_events a w cap c st) as [[E He]|(f & rest & E & He & Hi & _)].
  - rewrite (body_read_failed _ _ _ _ _ E). cbn [control events fst snd].
    intros _. split; [discriminate|]. exists []. reflexivity.
  - destruct (control (body a w cap c st)).
    + specialize (IH (cursor (body a w cap c st)) (locals (body a w cap c st))).
      destruct (loop fuel a w cap _ _) as [evs r]. cbn [fst snd] in *.
      rewrite He. intro Hin. apply in_app_or in Hin.
      destruct Hin as [[H|[H|H]]|H]; try discriminate.
      * exfalso. exact (Hrest _ Hi H).
      * destruct (IH H) as [Hr [t Ht]]. split; [exact Hr|].
        exists ((EvRead (Some f) :: EvWrite (annotated a (backSub st) f (S (frame_num st))) :: rest) ++ t).
        rewrite Ht, app_assoc. reflexivity.
    + cbn [fst snd]. rewrite He. intros [H|[H|H]]; try discriminate.
      exfalso. exact (Hrest _ Hi H).
Qed.

(** The frames read by one iteration of a run. *)
Lemma frames_read_iteration (k : nat) :
  frames_read (events (iteration a w cap k)) = delivered cap k.
Proof.
  pose proof (reads_state_at a w cap k) as Hr.
  unfold iteration, delivered. destruct (state_at a w cap k) as [c st].
  cbn [fst] in Hr.
  destruct (body_events a w cap c st) as [[E ->]|(f & rest & E & -> & Hi & _)];
    rewrite Hr in E; rewrite E; [reflexivity|].
  cbn [frames_read]. f_equal.
  induction Hi as [|e rest He _ IH]; [reflexivity|].
  destruct e; try discriminate; exact IH.
Qed.

Lemma frames_read_iterations (n : nat) :
  forall i,
    frames_read (iterations a w cap i n) = flat_map (delivered cap) (seq i n).
Proof.
  induction n as [|n IH]; intro i; [reflexivity|].
  cbn [iterations seq flat_map].
  rewrite frames_read_app, frames_read_iteration, IH. reflexivity.
Qed.

(** While the run goes on every read delivers a frame. *)
Lemma delivered_running (n : nat) :
  forall i,
    (forall j, (i <= j < i + n)%nat -> stops a w cap j = false) ->
    length (flat_map (delivered cap) (seq i n)) = n.
Proof.
  induction n as [|n IH]; intros i H; [reflexivity|].
  cbn [seq flat_map]. rewrite length_app, IH by (intros j Hj; apply H; lia).
  specialize (H i ltac:(lia)). unfold stops, delivered in *.
  destruct (read cap i); [reflexivity | discriminate].
Qed.

Lemma iterations_snoc (n : nat) :
  forall i,
    iterations a w cap i (S n)
    = iterations a w cap i n ++ events (iteration a w cap (i + n)).
Proof.
  induction n as [|n IH]; intro i.
  - cbn [iterations app]. rewrite app_nil_r, Nat.add_0_r. reflexivity.
  - change (iterations a w cap i (S (S n)))
      with (events (iteration a w cap i) ++ iterations a w cap (S i) (S n)).
    rewrite IH. cbn [iterations]. rewrite <- app_assoc, Nat.add_succ_r.
    reflexivity.
Qed.

(** The iteration of a failed read. *)
Lemma iteration_read_failed (n : nat) :
  read cap n = None -> events (iteration a w cap n) = [EvRead None].
Proof.
  intro E. pose proof (reads_state_at a w cap n) as Hr.
  unfold iteration. destruct (state_at a w cap n) as [c st]. cbn [fst] in Hr.
  rewrite <- Hr in E. rewrite (body_read_failed _ _ _ _ _ E). reflexivity.
Qed.

(** Up to read [n] the run does not see what the stream holds from [n]
    on. *)
Lemma state_at_cut (n i : nat) :
  (i <= n)%nat ->
  state_at a (cut_at n w) (end_of_stream_at n cap) i = state_at a w cap i.
Proof.
  induction i as [|i IH]; intro H; [reflexivity|].
  cbn [state_at]. rewrite IH by lia.
  pose proof (reads_state_at a w cap i) as Hr.
  destruct (state_at a w cap i) as [c st]. cbn [fst] in Hr.
  unfold body. cbn [read end_of_stream_at waitKey cut_at].
  rewrite Hr. replace (i <? n)%nat with true by (symmetry; apply Nat.ltb_lt; lia).
  reflexivity.
Qed.

Lemma iterations_cut (n k : nat) :
  forall i, (i + k <= n)%nat ->
    iterations a (cut_at n w) (end_of_stream_at n cap) i k
    = iterations a w cap i k.
Proof.
  induction k as [|k IH]; intros i H; [reflexivity|].
  cbn [iterations]. rewrite IH by lia. f_equal.
  unfold iteration. rewrite state_at_cut by lia.
  pose proof (reads_state_at a w cap i) as Hr.
  destruct (state_at a w cap i) as [c st]. cbn [fst] in Hr.
  unfold body. cbn [read end_of_stream_at waitKey cut_at].
  rewrite Hr. replace (i <? n)%nat with true by (symmetry; apply Nat.ltb_lt; lia).
  reflexivity.
Qed.

Lemma stops_cut (n j : nat) :
  stops a (cut_at n w) (end_of_stream_at n cap) j
  = if (j <? n)%nat then stops a w cap j else true.
Proof.
  unfold stops. cbn [read end_of_stream_at waitKey cut_at].
  destruct (j <? n)%nat; reflexivity.
Qed.

End Trace.

(** *** The dispatch on [--video] *)

(** A string that fails [isdigit] is passed on unchanged as a path. *)
Lemma select_source_path (u : Py.UnicodeData) (v : Py.str) :
  Py.isdigit u v = false -> select_source u v = inr (File v).
Proof. intro H. unfold select_source. rewrite H. reflexivity. Qed.

Lemma int_digits_decimal (u : Py.UnicodeData) (v : Py.str) :
  Forall (fun c => Py.ToDecimalDigit u c <> None) v ->
  forall acc, exists n, Py.int_digits u acc v = inr n.
Proof.
  induction 1 as [|c v Hc _ IH]; intro acc; cbn [Py.int_digits].
  - exists acc. reflexivity.
  - destruct (Py.ToDecimalDigit u c) as [d|]; [apply IH | congruence].
Qed.

(** A string of decimal digits, no more of them than [int] converts,
    selects a camera. *)
Lemma select_source_decimal (u : Py.UnicodeData) (v : Py.str) :
  Py.isdigit u v = true ->
  Forall (fun c => Py.ToDecimalDigit u c <> None) v ->
  Z.of_nat (length v) <= Py.max_str_digits ->
  exists n, select_source u v = inr (Camera n).
Proof.
  intros Hd Hv Hlen. unfold select_source. rewrite Hd.
  destruct v as [|c v]; [discriminate|].
  destruct (int_digits_decimal u _ Hv 0) as [n Hn].
  exists n. unfold Py.int.
  replace (Py.max_str_digits <? Z.of_nat (length (c :: v))) with false
    by (symmetry; apply Z.ltb_ge; exact Hlen).
  rewrite Hn. reflexivity.
Qed.

(** C8.  The dispatch is not total: a character that [isdigit] accepts
    and that has no decimal value, such as the superscript two, sends
    [main] into [int], which raises [ValueError]; no capture is created. *)
Theorem digit_without_decimal_value_raises
    {cv : OpenCV} (u : Py.UnicodeData) (c : Py.codepoint) (d : Z)
    (fuel : nat) (a : Args) (w : World) :
  Py.ToDigit u c = Some d ->
  Py.ToDecimalDigit u c = None ->
  video a = [c] ->
  Py.isdigit u (video a) = true
  /\ select_source u (video a) = inl Py.ValueError
  /\ main u fuel a w = ([], Some (Uncaught Py.ValueError)).
Proof.
  intros Hd Hn Hv.
  assert (Hi : Py.isdigit u (video a) = true).
  { rewrite Hv. cbn. rewrite Hd. reflexivity. }
  assert (Hs : select_source u (video a) = inl Py.ValueError).
  { unfold select_source. rewrite Hi, Hv. cbn. rewrite Hn. reflexivity. }
  repeat split; [exact Hi | exact Hs |].
  unfold main. rewrite Hs. reflexivity.
Qed.

Lemma digit_without_decimal_value_raises_superscript_two :
  Py.isdigit Py.latin1 [178%N] = true
  /\ select_source Py.latin1 [178%N] = inl Py.ValueError
  /\ main Py.latin1 5
       {| video := [178%N]; out := Py.lit "fish_tracked.mp4";
          min_area := 800; debug := false |} Demo.world
     = ([], Some (Uncaught Py.ValueError)).
Proof.
  apply (digit_without_decimal_value_raises Py.latin1 178%N 2 5
           {| video := [178%N]; out := Py.lit "fish_tracked.mp4";
              min_area := 800; debug := false |} Demo.world);
    reflexivity.
Defined.

(** *** Truncation of a float *)

Lemma int_of_float_zero (x : Q) :
  Py.int_of_float x = 0 <-> (inject_Z (-1) < x /\ x < inject_Z 1)%Q.
Proof.
  destruct x as [n d]. unfold Py.int_of_float, Qlt, inject_Z. cbn [Qnum Qden].
  rewrite !Z.mul_1_r.
  pose proof (Pos2Z.is_pos d) as Hd.
  rewrite Z.quot_small_iff by lia. lia.
Qed.

(** *** The claims about the run *)

Section Claims.

Context {cv : OpenCV}.
Variable ucd : Py.UnicodeData.

(** The trace of a run whose source opened: the capture, the prologue,
    events of the loop, and the epilogue once the loop has ended. *)
Lemma main_trace (fuel : nat) (a : Args) (w : World) (src : Source) :
  select_source ucd (video a) = inr src ->
  isOpened (VideoCapture w src) = true ->
  exists evs,
    evs = fst (loop fuel a w (VideoCapture w src) start init_locals)
    /\ Forall (fun e => is_loop_event e = true) evs
    /\ ((main ucd fuel a w
         = (EvVideoCapture src :: prologue a (VideoCapture w src) ++ evs, None)
         /\ snd (loop fuel a w (VideoCapture w src) start init_locals) = None)
        \/ (main ucd fuel a w
            = (EvVideoCapture src :: prologue a (VideoCapture w src)
                 ++ evs ++ epilogue a, Some Returned)
            /\ snd (loop fuel a w (VideoCapture w src) start init_locals)
               <> None)).
Proof.
  intros Hs Ho. eexists. split; [reflexivity|]. split; [apply loop_events|].
  rewrite (main_opened _ _ _ _ _ Hs Ho).
  destruct (snd (loop fuel a w (VideoCapture w src) start init_locals)).
  - right. split; [reflexivity | discriminate].
  - left. split; reflexivity.
Qed.

Lemma not_loop_event (t : list Event) (e : Event) :
  Forall (fun e => is_loop_event e = true) t ->
  is_loop_event e = false -> ~ In e t.
Proof.
  intros Hf He Hin. rewrite Forall_forall in Hf.
  rewrite (Hf _ Hin) in He. discriminate.
Qed.

(** C10.  The writer is created once, with the frame rate
    [int(cap.get(CAP_PROP_FPS)) or 30]: 30 when the reported rate
    truncates to 0 (that is, lies strictly between -1 and 1), the
    truncated rate otherwise. *)
Theorem writer_frame_rate (fuel : nat) (a : Args) (w : World) (src : Source) :
  select_source ucd (video a) = inr src ->
  isOpened (VideoCapture w src) = true ->
  In (EvVideoWriter (out a) (VideoWriter_fourcc "m" "p" "4" "v")
        (writer_fps (VideoCapture w src)) (writer_size (VideoCapture w src)))
     (fst (main ucd fuel a w))
  /\ (forall p c f s,
         In (EvVideoWriter p c f s) (fst (main ucd fuel a w)) ->
         f = writer_fps (VideoCapture w src))
  /\ (Py.int_of_float (CAP_PROP_FPS (VideoCapture w src)) = 0 ->
      writer_fps (VideoCapture w src) = 30)
  /\ (Py.int_of_float (CAP_PROP_FPS (VideoCapture w src)) <> 0 ->
      writer_fps (VideoCapture w src)
      = Py.int_of_float (CAP_PROP_FPS (VideoCapture w src)))
  /\ (Py.int_of_float (CAP_PROP_FPS (VideoCapture w src)) = 0
      <-> (inject_Z (-1) < CAP_PROP_FPS (VideoCapture w src)
           /\ CAP_PROP_FPS (VideoCapture w src) < inject_Z 1)%Q).
Proof.
  intros Hs Ho.
  destruct (main_trace fuel a w src Hs Ho) as (evs & _ & Hl & H).
  split; [|split; [|split; [|split]]].
  - destruct H as [[-> _]|[-> _]]; cbn [fst prologue app]; right; left; reflexivity.
  - intros p c f s Hin.
    assert (Hin' : In (EvVideoWriter p c f s)
                     (EvVideoCapture src :: prologue a (VideoCapture w src)
                        ++ evs ++ epilogue a)).
    { destruct H as [[Hm _]|[Hm _]]; rewrite Hm in Hin; cbn [fst] in Hin;
        [|exact Hin].
      destruct Hin as [Hin|Hin]; [left; exact Hin|right].
      apply in_app_or in Hin. apply in_or_app.
      destruct Hin as [Hin|Hin]; [left; exact Hin|right].
      apply in_or_app. left. exact Hin. }
    destruct Hin' as [Hin'|Hin']; [discriminate|].
    apply in_app_or in Hin'. destruct Hin' as [[Hin'|[Hin'|[]]]|Hin'];
      try discriminate.
    + inversion Hin'. reflexivity.
    + apply in_app_or in Hin'. destruct Hin' as [Hin'|Hin'].
      * exfalso. exact (not_loop_event _ (EvVideoWriter p c f s) Hl eq_refl Hin').
      * unfold epilogue in Hin'. destruct (debug a); cbn in Hin';
          repeat (destruct Hin' as [Hin'|Hin']; try discriminate);
          destruct Hin'.
  - intro H0. unfold writer_fps. rewrite H0. reflexivity.
  - intro H0. unfold writer_fps, Py.or_int.
    destruct (Z.eqb_spec (Py.int_of_float (CAP_PROP_FPS (VideoCapture w src))) 0);
      [contradiction | reflexivity].
  - apply int_of_float_zero.
Qed.

(** A run that stops first at iteration [n]. *)
Lemma main_stops_at (fuel : nat) (a : Args) (w : World) (src : Source) (n : nat) :
  select_source ucd (video a) = inr src ->
  isOpened (VideoCapture w src) = true ->
  (forall j, (j < n)%nat -> stops a w (VideoCapture w src) j = false) ->
  stops a w (VideoCapture w src) n = true ->
  (n < fuel)%nat ->
  main ucd fuel a w
  = (EvVideoCapture src :: prologue a (VideoCapture w src)
       ++ iterations a w (VideoCapture w src) 0 (S n) ++ epilogue a,
     Some Returned).
Proof.
  intros Hs Ho Hb Hst Hf. rewrite (main_opened _ _ _ _ _ Hs Ho).
  rewrite (loop_stops_at _ _ _ _ _ Hb Hst Hf). reflexivity.
Qed.

(** A run none of whose first [fuel] iterations stops. *)
Lemma main_goes_on (fuel : nat) (a : Args) (w : World) (src : Source) :
  select_source ucd (video a) = inr src ->
  isOpened (VideoCapture w src) = true ->
  (forall j, (j < fuel)%nat -> stops a w (VideoCapture w src) j = false) ->
  main ucd fuel a w
  = (EvVideoCapture src :: prologue a (VideoCapture w src)
       ++ iterations a w (VideoCapture w src) 0 fuel,
     None).
Proof.
  intros Hs Ho Hb. rewrite (main_opened _ _ _ _ _ Hs Ho).
  rewrite (loop_goes_on _ _ _ _ Hb). reflexivity.
Qed.

Lemma ends_with_suffix (p s : Py.str) : ends_with s (p ++ s).
Proof. exists p. reflexivity. Qed.

(** C3, as the code has it.  If the source does not open, [main] prints
    the error message, which ends with the source as given, and exits with
    status 1 without reading a frame.  If it opens, [main] returns, its last
    act being to print the success message, which ends with the output
    path, as soon as an iteration stops (a read fails or, under [--debug],
    a quit key is pressed); as long as none stops it is still running. *)
Theorem exit_behaviour (a : Args) (w : World) (src : Source) :
  select_source ucd (video a) = inr src ->
  (isOpened (VideoCapture w src) = false ->
   forall fuel,
     main ucd fuel a w
     = ([EvVideoCapture src; EvPrint (msg_cannot_open (video a))],
        Some (SysExit 1))
     /\ exit_status (SysExit 1) <> 0
     /\ ends_with (video a) (msg_cannot_open (video a))
     /\ frames_read (fst (main ucd fuel a w)) = []
     /\ writes (fst (main ucd fuel a w)) = [])
  /\ (isOpened (VideoCapture w src) = true ->
      (forall n fuel,
          stops a w (VideoCapture w src) n = true -> (n < fuel)%nat ->
          snd (main ucd fuel a w) = Some Returned
          /\ exit_status Returned = 0
          /\ exists t,
              fst (main ucd fuel a w) = t ++ [EvPrint (msg_finished (out a))])
      /\ ends_with (out a) (msg_finished (out a))
      /\ (forall fuel,
             (forall n, (n < fuel)%nat ->
                        stops a w (VideoCapture w src) n = false) ->
             snd (main ucd fuel a w) = None)).
Proof.
  intro Hs. split; intro Ho.
  - intro fuel. rewrite (main_not_opened _ _ _ src fuel Hs Ho). cbn [fst].
    split; [reflexivity|]. split; [discriminate|].
    split; [|split; reflexivity].
    unfold msg_cannot_open. rewrite !app_assoc. apply ends_with_suffix.
  - split; [|split].
    + intros n fuel Hst Hf.
      destruct (main_returns_iff ucd a w src fuel Hs Ho) as [[_ Hr] _].
      assert (Hret : snd (main ucd fuel a w) = Some Returned)
        by (apply Hr; exists n; split; assumption).
      split; [exact Hret|]. split; [reflexivity|].
      destruct (main_trace fuel a w src Hs Ho) as (evs & _ & _ & [[Hm _]|[Hm _]]);
        rewrite Hm in Hret |- *; [discriminate|]. cbn [fst].
      unfold epilogue.
      exists (EvVideoCapture src :: prologue a (VideoCapture w src) ++ evs
                ++ [EvCapRelease; EvOutRelease]
                ++ (if debug a then [EvDestroyAllWindows] else [])).
      simpl. rewrite <- app_assoc. reflexivity.
    + unfold msg_finished. rewrite !app_assoc. apply ends_with_suffix.
    + intros fuel Hb.
      destruct (main_returns_iff ucd a w src fuel Hs Ho) as [_ [_ Hn]].
      apply Hn, Hb.
Qed.

(** The only writer [main] creates. *)
Lemma main_writer_event
    (fuel : nat) (a : Args) (w : World) (src : Source)
    (p : Py.str) (c f : Z) (s : Z * Z) :
  select_source ucd (video a) = inr src ->
  isOpened (VideoCapture w src) = true ->
  In (EvVideoWriter p c f s) (fst (main ucd fuel a w)) ->
  p = out a /\ s = writer_size (VideoCapture w src).
Proof.
  intros Hs Ho Hin.
  destruct (main_trace fuel a w src Hs Ho) as (evs & _ & Hl & H).
  assert (Hcases : EvVideoWriter p c f s
                   = EvVideoWriter (out a) (VideoWriter_fourcc "m" "p" "4" "v")
                       (writer_fps (VideoCapture w src))
                       (writer_size (VideoCapture w src))
                   \/ In (EvVideoWriter p c f s) evs
                   \/ In (EvVideoWriter p c f s) (epilogue a)).
  { destruct H as [[Hm _]|[Hm _]]; rewrite Hm in Hin;
      cbn [fst prologue app In] in Hin;
      destruct Hin as [Hin|[Hin|[Hin|Hin]]]; try discriminate;
      try (left; symmetry; exact Hin).
    - right. left. exact Hin.
    - apply (in_app_or evs (epilogue a)) in Hin. right. exact Hin. }
  destruct Hcases as [Heq|[Hin'|Hin']].
  - inversion Heq. split; reflexivity.
  - exfalso. exact (not_loop_event _ (EvVideoWriter p c f s) Hl eq_refl Hin').
  - exfalso. unfold epilogue in Hin'. destruct (debug a); cbn in Hin';
      repeat (destruct Hin' as [Hin'|Hin']; try discriminate);
      destruct Hin'.
Qed.

Lemma stops_without_debug (a : Args) (w : World) (cap : Capture) (n : nat) :
  debug a = false ->
  (stops a w cap n = true <-> read cap n = None)
  /\ (stops a w cap n = false <-> read cap n <> None).
Proof.
  intro Hd. unfold stops. rewrite Hd.
  destruct (read cap n); cbn [andb]; repeat split; congruence.
Qed.

(** C9.  Without [--debug] no key is ever asked for and no window shown;
    an iteration breaks exactly when its read fails; hence [main] returns
    within [fuel] iterations exactly when one of the first [fuel] reads
    fails, is still in the loop otherwise, and, when it returns, the last
    event of the loop is a failed read. *)
Theorem key_check_needs_debug
    (fuel : nat) (a : Args) (w : World) (src : Source) :
  debug a = false ->
  select_source ucd (video a) = inr src ->
  isOpened (VideoCapture w src) = true ->
  Forall (fun e => is_interactive e = false) (fst (main ucd fuel a w))
  /\ (forall cap c st,
         control (body a w cap c st) = Break <-> read cap (reads c) = None)
  /\ (snd (main ucd fuel a w) = Some Returned
      <-> exists n, (n < fuel)%nat /\ read (VideoCapture w src) n = None)
  /\ (snd (main ucd fuel a w) = None
      <-> forall n, (n < fuel)%nat -> read (VideoCapture w src) n <> None)
  /\ (snd (main ucd fuel a w) = Some Returned ->
      exists t, fst (main ucd fuel a w) = t ++ EvRead None :: epilogue a).
Proof.
  intros Hd Hs Ho.
  destruct (main_returns_iff ucd a w src fuel Hs Ho) as [Hret Hnone].
  split; [|split; [|split; [|split]]].
  - assert (Hloop : forall fuel' c st,
               Forall (fun e => is_interactive e = false)
                 (fst (loop fuel' a w (VideoCapture w src) c st))).
    { apply loop_Forall. intros c st.
      destruct (body_events a w (VideoCapture w src) c st)
        as [[_ ->]|(f & rest & _ & -> & _ & Hrest)].
      - repeat constructor.
      - rewrite (Hrest Hd). repeat constructor. }
    rewrite (main_opened _ _ _ _ _ Hs Ho).
    destruct (snd (loop fuel a w (VideoCapture w src) start init_locals));
      cbn [fst]; constructor; try reflexivity; unfold prologue, epilogue;
      rewrite ?Hd; repeat (apply Forall_app; split); try apply Hloop;
      repeat constructor.
  - intros cap c st. destruct (read cap (reads c)) as [f|] eqn:E.
    + rewrite (body_read_ok _ _ _ _ _ _ E). cbn [control]. rewrite Hd.
      cbn [andb]. split; discriminate.
    + rewrite (body_read_failed _ _ _ _ _ E). cbn [control].
      split; reflexivity.
  - rewrite Hret. split; intros (n & Hn & H); exists n; split; try assumption;
      apply (stops_without_debug a w (VideoCapture w src) n Hd); assumption.
  - rewrite Hnone. split; intros H n Hn;
      apply (stops_without_debug a w (VideoCapture w src) n Hd); apply H, Hn.
  - intro Hr.
    destruct (stop_within a w (VideoCapture w src) fuel) as [(n & Hn & Hst & Hb)|Hb].
    + rewrite (main_stops_at fuel a w src n Hs Ho Hb Hst Hn). cbn [fst].
      apply (stops_without_debug a w (VideoCapture w src) n Hd) in Hst.
      rewrite iterations_snoc, (iteration_read_failed _ _ _ _ Hst).
      exists (EvVideoCapture src :: prologue a (VideoCapture w src)
                ++ iterations a w (VideoCapture w src) 0 n).
      simpl. rewrite <- app_assoc. reflexivity.
    + apply Hnone in Hb. rewrite Hb in Hr. discriminate.
Qed.

(** The images [main] writes are those the loop writes. *)
Lemma main_writes (fuel : nat) (a : Args) (w : World) (src : Source) :
  select_source ucd (video a) = inr src ->
  isOpened (VideoCapture w src) = true ->
  writes (fst (main ucd fuel a w))
  = writes (fst (loop fuel a w (VideoCapture w src) start init_locals)).
Proof.
  intros Hs Ho.
  destruct (main_trace fuel a w src Hs Ho) as (evs & -> & _ & [[Hm _]|[Hm _]]);
    rewrite Hm; simpl; [reflexivity|].
  rewrite writes_app. unfold epilogue.
  destruct (debug a); simpl; apply app_nil_r.
Qed.

(** The k-th image [main] writes is the k-th frame of the stream, stamped
    with the frame number [k + 1]. *)
Lemma main_nth_write
    (fuel : nat) (a : Args) (w : World) (src : Source) (k : nat) (img : Image) :
  select_source ucd (video a) = inr src ->
  isOpened (VideoCapture w src) = true ->
  nth_error (writes (fst (main ucd fuel a w))) k = Some img ->
  exists bs f,
    read (VideoCapture w src) k = Some f /\ img = annotated a bs f (S k).
Proof.
  intros Hs Ho Hk. rewrite (main_writes fuel a w src Hs Ho) in Hk.
  destruct (loop_nth_write a w _ fuel _ _ _ _ Hk) as (bs & f & Hr & Hi).
  exists bs, f. split; assumption.
Qed.

Lemma writes_body_read_ok
    (a : Args) (w : World) (cap : Capture) (c : Cursor) (st : Locals) (f : Frame) :
  read cap (reads c) = Some f ->
  writes (events (body a w cap c st))
  = [annotated a (backSub st) f (S (frame_num st))].
Proof.
  intro E. rewrite (body_read_ok _ _ _ _ _ _ E). cbn [events].
  destruct (debug a); reflexivity.
Qed.

(** C7.  The frame index starts at 0; an iteration whose read succeeds
    raises it by one and stamps the new value on the frame it writes, an
    iteration whose read fails leaves it alone; what an iteration does
    depends on the locals only through the frame index and the background
    model; so in front of iteration [i] of a run the index is [i], and the
    k-th frame written by [main] carries the number [k + 1]. *)
Theorem frame_index_counts_frames_read :
  frame_num init_locals = 0%nat
  /\ (forall a w cap c st f,
         read cap (reads c) = Some f ->
         frame_num (locals (body a w cap c st)) = S (frame_num st)
         /\ writes (events (body a w cap c st))
            = [annotated a (backSub st) f (S (frame_num st))])
  /\ (forall a w cap c st,
         read cap (reads c) = None ->
         frame_num (locals (body a w cap c st)) = frame_num st
         /\ writes (events (body a w cap c st)) = [])
  /\ (forall a w cap c st st',
         frame_num st = frame_num st' ->
         backSub st = backSub st' ->
         events (body a w cap c st) = events (body a w cap c st')
         /\ control (body a w cap c st) = control (body a w cap c st')
         /\ cursor (body a w cap c st) = cursor (body a w cap c st')
         /\ frame_num (locals (body a w cap c st))
            = frame_num (locals (body a w cap c st'))
         /\ backSub (locals (body a w cap c st))
            = backSub (locals (body a w cap c st'))
         /\ (read cap (reads c) <> None ->
             locals (body a w cap c st) = locals (body a w cap c st')))
  /\ (forall a w cap i,
         (forall j, (j < i)%nat -> stops a w cap j = false) ->
         frame_num (snd (state_at a w cap i)) = i)
  /\ (forall fuel a w src k img,
         select_source ucd (video a) = inr src ->
         isOpened (VideoCapture w src) = true ->
         nth_error (writes (fst (main ucd fuel a w))) k = Some img ->
         exists bs f,
           read (VideoCapture w src) k = Some f
           /\ img = annotated a bs f (S k)).
Proof.
  split; [reflexivity|]. split; [|split; [|split; [|split]]].
  - intros a w cap c st f E. split; [|apply writes_body_read_ok, E].
    rewrite (body_read_ok _ _ _ _ _ _ E). reflexivity.
  - intros a w cap c st E. rewrite (body_read_failed _ _ _ _ _ E).
    split; reflexivity.
  - intros a w cap c st st' Hn Hb.
    destruct (read cap (reads c)) as [f|] eqn:E.
    + rewrite !(body_read_ok _ _ _ _ _ _ E), Hn, Hb.
      repeat split; reflexivity.
    + rewrite !(body_read_failed _ _ _ _ _ E). cbn.
      repeat split; try assumption. intro H. contradiction.
  - intros a w cap i H. apply (state_at_running a w cap i H).
  - intros fuel a w src k img. apply main_nth_write.
Qed.

(** C4.  The count is computed afresh for each frame: after an iteration
    whose read succeeds, [fish_count] is the number of contours of that
    frame that reach [--min-area], whatever it was before, and the frame is
    written with one box per such contour, numbered from 1, and that count
    in the overlay.  So it is for every frame [main] writes. *)
Theorem fish_count_is_frame_local :
  (forall a w cap c st f,
      read cap (reads c) = Some f ->
      fish_count (locals (body a w cap c st))
      = length (filter (reaches (min_area a))
                  (detect (snd (foreground (backSub st) f))))
      /\ writes (events (body a w cap c st))
         = [annotated a (backSub st) f (S (frame_num st))])
  /\ (forall a w cap c st n,
         read cap (reads c) <> None ->
         body a w cap c
           {| fish_count := n; frame_num := frame_num st;
              backSub := backSub st; frame := frame st;
              fgMask := fgMask st; contours := contours st |}
         = body a w cap c st)
  /\ (forall fuel a w src k img,
         select_source ucd (video a) = inr src ->
         isOpened (VideoCapture w src) = true ->
         nth_error (writes (fst (main ucd fuel a w))) k = Some img ->
         exists bs f,
           read (VideoCapture w src) k = Some f
           /\ pixels img = f
           /\ drawn img
              = boxes 0 (filter (reaches (min_area a))
                           (detect (snd (foreground bs f))))
                  ++ banner (S k)
                       (length (filter (reaches (min_area a))
                                  (detect (snd (foreground bs f)))))).
Proof.
  split; [|split].
  - intros a w cap c st f E. split; [|apply writes_body_read_ok, E].
    rewrite (body_read_ok _ _ _ _ _ _ E). reflexivity.
  - intros a w cap c st n H.
    destruct (read cap (reads c)) as [f|] eqn:E; [|contradiction].
    rewrite !(body_read_ok _ _ _ _ _ _ E). reflexivity.
  - intros fuel a w src k img Hs Ho Hk.
    destruct (main_nth_write fuel a w src k img Hs Ho Hk) as (bs & f & Hr & ->).
    exists bs, f. repeat split. exact Hr.
Qed.




(** C5.  A read that fails while the run is going on ends it like the end
    of the stream: the failed read is followed by [cap.release()],
    [out.release()], [cv2.destroyAllWindows()] under [--debug], and the
    success message, and [main] returns with status 0; the whole run is
    the one on a stream that ends in front of that read.  And whenever a
    failed read shows in a trace, the run has returned and these calls are
    what follows the failed read. *)
Theorem read_failure_ends_loop_normally
    (fuel : nat) (a : Args) (w : World) (src : Source) (n : nat) :
  select_source ucd (video a) = inr src ->
  isOpened (VideoCapture w src) = true ->
  (forall j, (j < n)%nat -> stops a w (VideoCapture w src) j = false) ->
  read (VideoCapture w src) n = None ->
  (n < fuel)%nat ->
  main ucd fuel a w
  = (EvVideoCapture src
     :: EvVideoWriter (out a) (VideoWriter_fourcc "m" "p" "4" "v")
          (writer_fps (VideoCapture w src)) (writer_size (VideoCapture w src))
     :: EvPrint msg_tracking
     :: iterations a w (VideoCapture w src) 0 n
        ++ [EvRead None; EvCapRelease; EvOutRelease]
        ++ (if debug a then [EvDestroyAllWindows] else [])
        ++ [EvPrint (msg_finished (out a))],
     Some Returned)
  /\ exit_status Returned = 0
  /\ (forall k, read (VideoCapture (cut_at n w) src) (n + k) = None)
  /\ main ucd fuel a (cut_at n w) = main ucd fuel a w
  /\ (forall fuel',
         In (EvRead None) (fst (main ucd fuel' a w)) ->
         snd (main ucd fuel' a w) = Some Returned
         /\ exists t,
             fst (main ucd fuel' a w)
             = t ++ [EvRead None; EvCapRelease; EvOutRelease]
                 ++ (if debug a then [EvDestroyAllWindows] else [])
                 ++ [EvPrint (msg_finished (out a))]).
Proof.
  intros Hs Ho Hb Hr Hf.
  assert (Hst : stops a w (VideoCapture w src) n = true)
    by (unfold stops; rewrite Hr; reflexivity).
  assert (Hm : main ucd fuel a w
               = (EvVideoCapture src :: prologue a (VideoCapture w src)
                    ++ iterations a w (VideoCapture w src) 0 n
                    ++ EvRead None :: epilogue a,
                  Some Returned)).
  { rewrite (main_stops_at fuel a w src n Hs Ho Hb Hst Hf).
    rewrite iterations_snoc, (iteration_read_failed _ _ _ _ Hr).
    cbn [Nat.add]. rewrite <- app_assoc. reflexivity. }
  split; [exact Hm|]. split; [reflexivity|]. split; [|split].
  - intro k. cbn [VideoCapture cut_at read end_of_stream_at].
    replace (n + k <? n)%nat with false; [reflexivity|].
    symmetry. apply Nat.ltb_ge. lia.
  - rewrite Hm.
    assert (Hr' : read (VideoCapture (cut_at n w) src) n = None).
    { cbn [VideoCapture cut_at read end_of_stream_at].
      rewrite Nat.ltb_irrefl. reflexivity. }
    rewrite (main_stops_at fuel a (cut_at n w) src n Hs Ho).
    + rewrite iterations_snoc, (iteration_read_failed _ _ _ _ Hr').
      cbn [Nat.add VideoCapture cut_at].
      rewrite iterations_cut by lia. rewrite <- app_assoc. reflexivity.
    + intros j Hj. cbn [VideoCapture cut_at]. rewrite stops_cut.
      replace (j <? n)%nat with true by (symmetry; apply Nat.ltb_lt; lia).
      apply Hb, Hj.
    + cbn [VideoCapture cut_at]. rewrite stops_cut, Nat.ltb_irrefl. reflexivity.
    + exact Hf.
  - intros fuel' Hin.
    destruct (main_trace fuel' a w src Hs Ho)
      as (evs & Hevs & Hl & [[Hm' Hn]|[Hm' _]]); rewrite Hm' in Hin |- *.
    + exfalso. simpl in Hin.
      destruct Hin as [Hin|[Hin|[Hin|Hin]]]; try discriminate.
      rewrite Hevs in Hin.
      destruct (loop_failed_read_last a w _ fuel' _ _ Hin) as [Hne _].
      exact (Hne Hn).
    + cbn [fst snd]. split; [reflexivity|].
      simpl in Hin. destruct Hin as [Hin|[Hin|[Hin|Hin]]]; try discriminate.
      apply (in_app_or evs (epilogue a)) in Hin. destruct Hin as [Hin|Hin].
      * rewrite Hevs in Hin.
        destruct (loop_failed_read_last a w _ fuel' _ _ Hin) as [_ [t Ht]].
        rewrite <- Hevs in Ht.
        exists (EvVideoCapture src :: prologue a (VideoCapture w src) ++ t).
        rewrite Ht. simpl. rewrite <- !app_assoc. reflexivity.
      * exfalso. unfold epilogue in Hin. destruct (debug a); simpl in Hin;
          repeat (destruct Hin as [Hin|Hin]; try discriminate);
          destruct Hin.
Qed.

(** C6, as the code has it.  [main] creates one writer, on the output
    path, with the width and the height the capture reports.  Every frame
    that is read is written, once and in order, with its drawings and its
    number, also when the loop is left through the quit key.  The output
    therefore has as many frames as were read: all the frames of the
    stream when the run goes on until the stream ends, and only the frames
    up to the stop when a read fails before the end or the quit key is
    pressed. *)
Theorem one_frame_written_per_frame_read
    (fuel : nat) (a : Args) (w : World) (src : Source) :
  select_source ucd (video a) = inr src ->
  isOpened (VideoCapture w src) = true ->
  (exists rest,
      fst (main ucd fuel a w)
      = EvVideoCapture src
        :: EvVideoWriter (out a) (VideoWriter_fourcc "m" "p" "4" "v")
             (writer_fps (VideoCapture w src))
             (Py.int_of_float (CAP_PROP_FRAME_WIDTH (VideoCapture w src)),
              Py.int_of_float (CAP_PROP_FRAME_HEIGHT (VideoCapture w src)))
        :: rest
      /\ forall p c f s, ~ In (EvVideoWriter p c f s) rest)
  /\ map pixels (writes (fst (main ucd fuel a w)))
     = frames_read (fst (main ucd fuel a w))
  /\ (forall k img,
         nth_error (writes (fst (main ucd fuel a w))) k = Some img ->
         exists bs f,
           read (VideoCapture w src) k = Some f
           /\ img = annotated a bs f (S k))
  /\ (forall n,
         (n < fuel)%nat ->
         (forall j, (j < n)%nat -> stops a w (VideoCapture w src) j = false) ->
         stops a w (VideoCapture w src) n = true ->
         snd (main ucd fuel a w) = Some Returned
         /\ frames_read (fst (main ucd fuel a w))
            = flat_map (delivered (VideoCapture w src)) (seq 0 (S n))
         /\ length (writes (fst (main ucd fuel a w)))
            = (n + length (delivered (VideoCapture w src) n))%nat)
  /\ (forall n,
         (n < fuel)%nat ->
         (forall j, (j < n)%nat -> stops a w (VideoCapture w src) j = false) ->
         (forall j, (n <= j)%nat -> read (VideoCapture w src) j = None) ->
         snd (main ucd fuel a w) = Some Returned
         /\ length (writes (fst (main ucd fuel a w))) = n
         /\ map pixels (writes (fst (main ucd fuel a w)))
            = flat_map (delivered (VideoCapture w src)) (seq 0 n)).
Proof.
  intros Hs Ho.
  pose proof (main_writes fuel a w src Hs Ho) as Hw.
  assert (Hf : frames_read (fst (main ucd fuel a w))
               = frames_read (fst (loop fuel a w (VideoCapture w src)
                                     start init_locals))).
  { destruct (main_trace fuel a w src Hs Ho) as (evs & -> & _ & [[Hm _]|[Hm _]]);
      rewrite Hm; simpl; [reflexivity|].
    rewrite frames_read_app. unfold epilogue.
    destruct (debug a); simpl; apply app_nil_r. }
  assert (Hmap : map pixels (writes (fst (main ucd fuel a w)))
                 = frames_read (fst (main ucd fuel a w))).
  { rewrite Hw, Hf. apply loop_writes_frames_read. }
  assert (Hstop : forall n,
             (n < fuel)%nat ->
             (forall j, (j < n)%nat -> stops a w (VideoCapture w src) j = false) ->
             stops a w (VideoCapture w src) n = true ->
             snd (main ucd fuel a w) = Some Returned
             /\ frames_read (fst (main ucd fuel a w))
                = flat_map (delivered (VideoCapture w src)) (seq 0 (S n))
             /\ length (writes (fst (main ucd fuel a w)))
                = (n + length (delivered (VideoCapture w src) n))%nat).
  { intros n Hn Hb Hst.
    assert (Hfr : frames_read (fst (main ucd fuel a w))
                  = flat_map (delivered (VideoCapture w src)) (seq 0 (S n))).
    { rewrite Hf, (loop_stops_at _ _ _ _ _ Hb Hst Hn). cbn [fst].
      apply frames_read_iterations. }
    split; [|split].
    - rewrite (main_stops_at fuel a w src n Hs Ho Hb Hst Hn). reflexivity.
    - exact Hfr.
    - rewrite <- (length_map pixels (writes (fst (main ucd fuel a w)))), Hmap, Hfr.
      rewrite seq_S, flat_map_app, length_app. cbn [Nat.add flat_map].
      rewrite app_nil_r. f_equal.
      apply (delivered_running a w). intros j Hj. apply Hb. lia. }
  split; [|split; [|split; [|split]]].
  - destruct (main_trace fuel a w src Hs Ho) as (evs & _ & Hl & Hm).
    assert (Hnw : forall p c f s tl,
               ~ In (EvVideoWriter p c f s) tl ->
               ~ In (EvVideoWriter p c f s) (EvPrint msg_tracking :: evs ++ tl)).
    { intros p c f s tl Htl [H|H]; [discriminate|].
      apply in_app_or in H. destruct H as [H|H]; [|exact (Htl H)].
      exact (not_loop_event evs (EvVideoWriter p c f s) Hl eq_refl H). }
    destruct Hm as [[Hm _]|[Hm _]]; rewrite Hm; cbn [fst].
    + exists (EvPrint msg_tracking :: evs ++ []). split.
      * rewrite app_nil_r. reflexivity.
      * intros p c f s. apply Hnw. intros [].
    + exists (EvPrint msg_tracking :: evs ++ epilogue a). split; [reflexivity|].
      intros p c f s. apply Hnw. unfold epilogue.
      destruct (debug a); simpl; intro H;
        repeat (destruct H as [H|H]; try discriminate); destruct H.
  - exact Hmap.
  - intros k img Hk. exact (main_nth_write fuel a w src k img Hs Ho Hk).
  - exact Hstop.
  - intros n Hn Hb Hend.
    assert (Hst : stops a w (VideoCapture w src) n = true)
      by (unfold stops; rewrite (Hend n (Nat.le_refl n)); reflexivity).
    destruct (Hstop n Hn Hb Hst) as (Hr & Hfr & Hlen).
    assert (Hd : delivered (VideoCapture w src) n = [])
      by (unfold delivered; rewrite (Hend n (Nat.le_refl n)); reflexivity).
    split; [exact Hr|]. split.
    + rewrite Hlen, Hd. cbn [length]. lia.
    + rewrite Hmap, Hfr, seq_S, flat_map_app. cbn [Nat.add flat_map].
      rewrite Hd. rewrite !app_nil_r. reflexivity.
Qed.

End Claims.

(** *** The properties on the small instance *)

(** C3 as stated fails on a camera that delivers a frame at every read:
    the source opens, and without [--debug] the run never leaves the loop,
    so it never prints the success message. *)
Lemma endless_camera_never_returns :
  select_source Py.latin1 (video (Demo.args "0" false)) = inr (Camera 0)
  /\ isOpened (VideoCapture Demo.world (Camera 0)) = true
  /\ (forall fuel,
         snd (main Py.latin1 fuel (Demo.args "0" false) Demo.world) = None
         /\ ~ In (EvPrint (msg_finished (out (Demo.args "0" false))))
                (fst (main Py.latin1 fuel (Demo.args "0" false) Demo.world))).
Proof.
  split; [reflexivity|]. split; [reflexivity|]. intro fuel.
  assert (Hgo : forall j, (j < fuel)%nat ->
                  stops (Demo.args "0" false) Demo.world
                    (VideoCapture Demo.world (Camera 0)) j = false)
    by (intros j _; reflexivity).
  pose proof (main_goes_on Py.latin1 fuel (Demo.args "0" false) Demo.world
                (Camera 0) eq_refl eq_refl Hgo) as Hm.
  destruct (main_trace Py.latin1 fuel (Demo.args "0" false) Demo.world
              (Camera 0) eq_refl eq_refl) as (evs & _ & Hl & [[Hm' _]|[Hm' _]]);
    [|rewrite Hm' in Hm; discriminate].
  rewrite Hm'. cbn [fst snd]. split; [reflexivity|].
  intros [Hin|[Hin|[Hin|Hin]]]; try discriminate.
  exact (not_loop_event evs (EvPrint (msg_finished (out (Demo.args "0" false))))
           Hl eq_refl Hin).
Qed.

Lemma exit_behaviour_missing_file :
  select_source Py.latin1 (video (Demo.args "zz" false)) = inr (File (Py.lit "zz"))
  /\ isOpened (VideoCapture Demo.world (File (Py.lit "zz"))) = false
  /\ main Py.latin1 3 (Demo.args "zz" false) Demo.world
     = ([EvVideoCapture (File (Py.lit "zz"));
         EvPrint (msg_cannot_open (Py.lit "zz"))],
        Some (SysExit 1)).
Proof.
  split; [reflexivity|]. split; [reflexivity|].
  destruct (exit_behaviour Py.latin1 (Demo.args "zz" false) Demo.world
              (File (Py.lit "zz")) eq_refl) as [Hclosed _].
  destruct (Hclosed eq_refl 3%nat) as [Hm _]. exact Hm.
Defined.



Lemma read_failure_ends_loop_normally_glitch :
  read (VideoCapture Demo.world (File (Py.lit "g"))) 1 = None
  /\ read (VideoCapture Demo.world (File (Py.lit "g"))) 2 = Some Demo.frame1
  /\ main Py.latin1 5 (Demo.args "g" false) (cut_at 1 Demo.world)
     = main Py.latin1 5 (Demo.args "g" false) Demo.world
  /\ exists t,
      main Py.latin1 5 (Demo.args "g" false) Demo.world
      = (t ++ [EvRead None; EvCapRelease; EvOutRelease;
               EvPrint (msg_finished (Py.lit "fish_tracked.mp4"))],
         Some Returned).
Proof.
  split; [reflexivity|]. split; [reflexivity|].
  assert (Hb : forall j, (j < 1)%nat ->
                 stops (Demo.args "g" false) Demo.world
                   (VideoCapture Demo.world (File (Py.lit "g"))) j = false).
  { intros j Hj. destruct j; [reflexivity | lia]. }
  destruct (read_failure_ends_loop_normally Py.latin1 5 (Demo.args "g" false)
              Demo.world (File (Py.lit "g")) 1 eq_refl eq_refl Hb eq_refl
              ltac:(lia)) as (Hm & _ & _ & H & _).
  split; [exact H|]. rewrite Hm.
  exists (EvVideoCapture (File (Py.lit "g"))
          :: EvVideoWriter (out (Demo.args "g" false))
               (VideoWriter_fourcc "m" "p" "4" "v")
               (writer_fps (VideoCapture Demo.world (File (Py.lit "g"))))
               (writer_size (VideoCapture Demo.world (File (Py.lit "g"))))
          :: EvPrint msg_tracking
          :: iterations (Demo.args "g" false) Demo.world
               (VideoCapture Demo.world (File (Py.lit "g"))) 0 1).
  reflexivity.
Defined.

(** C6 as stated fails where the loop stops before the end of the stream:
    the file [glitch] holds two frames with a failed read between them,
    and the output of the run has one; the file [clip] holds two frames,
    and under [--debug] with [q] pressed at the first poll the output has
    one. *)
Lemma output_shorter_than_input :
  read Demo.glitch 0 = Some Demo.frame0
  /\ read Demo.glitch 1 = None
  /\ read Demo.glitch 2 = Some Demo.frame1
  /\ snd (main Py.latin1 5 (Demo.args "g" false) Demo.world) = Some Returned
  /\ length (writes (fst (main Py.latin1 5 (Demo.args "g" false) Demo.world)))
     = 1%nat
  /\ read Demo.clip 0 = Some Demo.frame0
  /\ read Demo.clip 1 = Some Demo.frame1
  /\ read Demo.clip 2 = None
  /\ snd (main Py.latin1 5 (Demo.args "a" true)
            {| VideoCapture := VideoCapture Demo.world;
               waitKey := fun _ => 113 |})
     = Some Returned
  /\ length
       (writes
          (fst (main Py.latin1 5 (Demo.args "a" true)
                  {| VideoCapture := VideoCapture Demo.world;
                     waitKey := fun _ => 113 |})))
     = 1%nat.
Proof. repeat split. Qed.

Lemma one_frame_written_per_frame_read_quit_key :
  quit_key (waitKey Demo.world 1) = true
  /\ map pixels (writes (fst (main Py.latin1 5 (Demo.args "a" true) Demo.world)))
     = frames_read (fst (main Py.latin1 5 (Demo.args "a" true) Demo.world))
  /\ length (writes (fst (main Py.latin1 5 (Demo.args "a" true) Demo.world)))
     = 2%nat.
Proof.
  split; [reflexivity|].
  destruct (one_frame_written_per_frame_read Py.latin1 5 (Demo.args "a" true)
              Demo.world (File (Py.lit "a")) eq_refl eq_refl)
    as (_ & Hmap & _ & Hn & _).
  split; [exact Hmap|].
  assert (Hb : forall j, (j < 1)%nat ->
                 stops (Demo.args "a" true) Demo.world
                   (VideoCapture Demo.world (File (Py.lit "a"))) j = false).
  { intros j Hj. destruct j; [reflexivity | lia]. }
  destruct (Hn 1%nat ltac:(lia) Hb eq_refl) as (_ & _ & Hlen).
  exact Hlen.
Defined.

Lemma key_check_needs_debug_clip :
  debug (Demo.args "a" false) = false
  /\ Forall (fun e => is_interactive e = false)
       (fst (main Py.latin1 5 (Demo.args "a" false) Demo.world)).
Proof.
  split; [reflexivity|].
  destruct (key_check_needs_debug Py.latin1 5 (Demo.args "a" false) Demo.world
              (File (Py.lit "a")) eq_refl eq_refl eq_refl) as [H _].
  exact H.
Defined.

Lemma writer_frame_rate_unknown :
  Py.int_of_float (CAP_PROP_FPS (VideoCapture Demo.world (File (Py.lit "a")))) = 0
  /\ writer_fps (VideoCapture Demo.world (File (Py.lit "a"))) = 30
  /\ In (EvVideoWriter (Py.lit "fish_tracked.mp4") 1983148141 30 (640, 480))
       (fst (main Py.latin1 5 (Demo.args "a" false) Demo.world)).
Proof.
  split; [reflexivity|].
  destruct (writer_frame_rate Py.latin1 5 (Demo.args "a" false) Demo.world
              (File (Py.lit "a")) eq_refl eq_refl) as (Hin & _ & H0 & _).
  split; [exact (H0 eq_refl) | exact Hin].
Defined.

Lemma frame_index_counts_frames_read_clip :
  nth_error (writes (fst (main Py.latin1 5 (Demo.args "a" false) Demo.world))) 1
  = Some (annotated (cv := Demo.cv) (Demo.args "a" false) 1%nat Demo.frame1 2)
  /\ exists bs f,
      read (VideoCapture Demo.world (File (Py.lit "a"))) 1 = Some f
      /\ annotated (cv := Demo.cv) (Demo.args "a" false) 1%nat Demo.frame1 2
         = annotated (Demo.args "a" false) bs f 2.
Proof.
  split; [reflexivity|].
  destruct (frame_index_counts_frames_read (cv := Demo.cv) Py.latin1)
    as (_ & _ & _ & _ & _ & Hk).
  exact (Hk 5%nat (Demo.args "a" false) Demo.world (File (Py.lit "a")) 1%nat _
           eq_refl eq_refl eq_refl).
Defined.

Lemma fish_count_is_frame_local_clip :
  read Demo.clip 0 = Some Demo.frame0
  /\ fish_count
       (locals (body (Demo.args "a" false) Demo.world Demo.clip start
                  Demo.stale))
     = 2%nat.
Proof.
  split; [reflexivity|].
  destruct (fish_count_is_frame_local (cv := Demo.cv) Py.latin1) as (Hbody & _).
  destruct (Hbody (Demo.args "a" false) Demo.world Demo.clip start
              Demo.stale Demo.frame0 eq_refl) as [Hc _].
  exact Hc.
Defined.

(** With [--min-area 800]: the blob of area 799 is passed over, those of
    area 800 and 900.5 are fish 1 and 2. *)
Example cutoff_on_frame0 :
  for_contours (cv := Demo.cv) 800 Demo.frame0
    (0%nat, @Build_Image Demo.cv Demo.frame0 [])
  = (2%nat,
     @Build_Image Demo.cv Demo.frame0
       (box (cv := Demo.cv) 1 Demo.exact ++ box (cv := Demo.cv) 2 Demo.large)).
Proof. reflexivity. Qed.

(** ** Further properties of the code *)

(** *** The quit key *)

(** X1.  Line 85 looks at the low byte of the key code only: a code quits
    exactly when it is [q] or [Q] modulo 256, so bits above the low byte
    are ignored, and the -1 of "no key" (low byte 255) never quits. *)
Theorem quit_key_low_byte (k : Z) :
  (quit_key k = true <-> k mod 256 = 113 \/ k mod 256 = 81)
  /\ (forall j, quit_key (k + 256 * j) = quit_key k)
  /\ (k mod 256 = 255 -> quit_key k = false).
Proof.
  assert (Hland : forall x, Z.land x 255 = x mod 256).
  { intro x. change 255 with (Z.ones 8). rewrite Z.land_ones by lia.
    reflexivity. }
  assert (Hq : forall x, quit_key x = ((x mod 256 =? 113) || (x mod 256 =? 81))%bool).
  { intro x. unfold quit_key. rewrite Hland. reflexivity. }
  split; [|split].
  - rewrite Hq, orb_true_iff, !Z.eqb_eq. reflexivity.
  - intro j. rewrite !Hq.
    replace ((k + 256 * j) mod 256) with (k mod 256); [reflexivity|].
    rewrite (Z.mul_comm 256 j), Z.mod_add by lia. reflexivity.
  - intro H. rewrite Hq, H. reflexivity.
Qed.

Lemma quit_key_no_key :
  (-1) mod 256 = 255 /\ quit_key (-1) = false.
Proof.
  split; [reflexivity|].
  destruct (quit_key_low_byte (-1)) as (_ & _ & H). apply H. reflexivity.
Defined.

(** *** The frame rate of the writer *)

(** X8.  The [or 30] of line 39 keeps the writer's frame rate away from 0
    and nothing more: a reported rate above -1 gives a rate of at least 1,
    a reported rate of 1 or more is truncated downwards, and a reported
    rate of -1 or less gives a negative rate. *)
Theorem writer_fps_never_zero {cv : OpenCV} (cap : Capture) :
  writer_fps cap <> 0
  /\ ((inject_Z (-1) < CAP_PROP_FPS cap)%Q -> 1 <= writer_fps cap)
  /\ ((inject_Z 1 <= CAP_PROP_FPS cap)%Q ->
      (inject_Z (writer_fps cap) <= CAP_PROP_FPS cap)%Q
      /\ (CAP_PROP_FPS cap < inject_Z (writer_fps cap + 1))%Q)
  /\ ((CAP_PROP_FPS cap <= inject_Z (-1))%Q -> writer_fps cap <= -1).
Proof.
  unfold writer_fps, Py.or_int, Py.int_of_float.
  destruct (CAP_PROP_FPS cap) as [n d]. unfold Qlt, Qle, inject_Z.
  cbn [Qnum Qden]. rewrite ?Z.mul_1_r.
  pose proof (Pos2Z.is_pos d) as Hd.
  pose proof (Z.quot_rem' n (Z.pos d)) as Hqr.
  assert (Hpos : 0 <= n -> 0 <= Z.rem n (Z.pos d) < Z.pos d)
    by (intro; apply Z.rem_bound_pos; lia).
  assert (Hneg : n <= 0 -> - Z.pos d < Z.rem n (Z.pos d) <= 0)
    by (intro; apply Z.rem_bound_pos_neg; lia).
  destruct (Z.eqb_spec (Z.quot n (Z.pos d)) 0) as [E|E].
  - split; [discriminate|]. split; [lia|]. rewrite E in Hqr. split.
    + intro H. exfalso. specialize (Hpos ltac:(lia)). lia.
    + intro H. exfalso. specialize (Hneg ltac:(lia)). lia.
  - split; [exact E|]. split; [|split].
    + intro H. destruct (Z.le_gt_cases 0 n) as [Hn|Hn].
      * specialize (Hpos Hn). nia.
      * specialize (Hneg ltac:(lia)). nia.
    + intro H. specialize (Hpos ltac:(lia)). split; nia.
    + intro H. specialize (Hneg ltac:(lia)). nia.
Qed.

(** *** The count as a function of the threshold *)

Section Threshold.

Context {cv : OpenCV}.

Lemma reaches_antitone (m1 m2 : Z) (cnt : Contour) :
  m1 <= m2 -> reaches m2 cnt = true -> reaches m1 cnt = true.
Proof.
  intros Hm H. apply reaches_le. apply reaches_le in H.
  eapply Qle_trans; [|exact H].
  unfold Qle, inject_Z. cbn [Qnum Qden]. lia.
Qed.

Lemma length_filter_le (m1 m2 : Z) (cs : list Contour) :
  m1 <= m2 ->
  (length (filter (reaches m2) cs) <= length (filter (reaches m1) cs)
   <= length cs)%nat.
Proof.
  intro Hm. induction cs as [|c cs IH]; [cbn; lia|]. cbn [filter].
  destruct (reaches m2 c) eqn:E2.
  - rewrite (reaches_antitone m1 m2 c Hm E2). cbn [length]. lia.
  - destruct (reaches m1 c); cbn [length]; lia.
Qed.

Lemma length_boxes (fish : list Contour) :
  forall n, length (boxes n fish) = (2 * length fish)%nat.
Proof.
  induction fish as [|c fish IH]; intro n; [reflexivity|].
  cbn [boxes]. rewrite length_app, IH. unfold box.
  destruct (boundingRect c) as [[[x y] w] h]. cbn [length]. lia.
Qed.

(** X9.  Over one frame the count is at most the number of contours, it
    does not go up when [--min-area] is raised, and the loop makes exactly
    two drawings for each fish it counts. *)
Theorem fish_count_antitone_in_min_area
    (cs : list Contour) (n : nat) (img : Image) :
  (forall m,
      (n <= fst (for_contours m cs (n, img)) <= n + length cs)%nat
      /\ length (drawn (snd (for_contours m cs (n, img))))
         = (length (drawn img)
            + 2 * (fst (for_contours m cs (n, img)) - n))%nat)
  /\ (forall m1 m2,
         m1 <= m2 ->
         (fst (for_contours m2 cs (n, img))
          <= fst (for_contours m1 cs (n, img)))%nat).
Proof.
  split.
  - intro m. rewrite for_contours_filter. cbn [fst snd drawn].
    pose proof (length_filter_le m m cs ltac:(lia)) as H.
    rewrite length_app, length_boxes. split; lia.
  - intros m1 m2 Hm. rewrite !for_contours_filter. cbn [fst].
    pose proof (length_filter_le m1 m2 cs Hm). lia.
Qed.

End Threshold.

Lemma fish_count_antitone_in_min_area_frame0 :
  800 <= 801
  /\ (fst (for_contours (cv := Demo.cv) 801 Demo.frame0
             (0%nat, @Build_Image Demo.cv Demo.frame0 []))
      <= fst (for_contours (cv := Demo.cv) 800 Demo.frame0
                (0%nat, @Build_Image Demo.cv Demo.frame0 [])))%nat.
Proof.
  split; [lia|].
  destruct (fish_count_antitone_in_min_area (cv := Demo.cv) Demo.frame0 0
              (@Build_Image Demo.cv Demo.frame0 [])) as [_ H].
  apply H. lia.
Defined.

(** *** The camera index *)

Lemma int_digits_ascii_digit
    (u : Py.UnicodeData) (k : N) (a : ascii) (s : Py.str) (acc : Z) :
  ascii_digits u ->
  (k < 10)%N ->
  N_of_ascii a = (48 + k)%N ->
  Py.int_digits u acc (N_of_ascii a :: s)
  = Py.int_digits u (10 * acc + Z.of_N k) s.
Proof.
  intros Hu Hk Ha. cbn [Py.int_digits].
  rewrite Ha, (proj1 (Hu k Hk)). reflexivity.
Qed.

Lemma int_digits_of_uint (u : Py.UnicodeData) (d : uint) :
  ascii_digits u ->
  forall acc : nat,
    Py.int_digits u (Z.of_nat acc) (Py.lit (NilEmpty.string_of_uint d))
    = inr (Z.of_nat (Nat.of_uint_acc d acc)).
Proof.
  intro Hu.
  induction d as [|d IH|d IH|d IH|d IH|d IH|d IH|d IH|d IH|d IH|d IH];
    intro acc; [reflexivity|..];
    cbn [NilEmpty.string_of_uint Py.lit Nat.of_uint_acc];
    match goal with
    | |- context [N_of_ascii ?a] =>
        let k := eval cbv in (N_of_ascii a - 48)%N in
        rewrite (int_digits_ascii_digit u k a _ _ Hu eq_refl eq_refl)
    end;
    rewrite <- IH; f_equal; rewrite Nat.tail_mul_spec; cbn [Z.of_N]; lia.
Qed.

Lemma isdigit_of_uint (u : Py.UnicodeData) (d : uint) :
  ascii_digits u ->
  forallb (fun c => Py.is_some (Py.ToDigit u c))
    (Py.lit (NilEmpty.string_of_uint d)) = true.
Proof.
  intro Hu.
  induction d as [|d IH|d IH|d IH|d IH|d IH|d IH|d IH|d IH|d IH|d IH];
    [reflexivity|..];
    cbn [NilEmpty.string_of_uint Py.lit forallb];
    rewrite IH, andb_true_r;
    match goal with
    | |- context [N_of_ascii ?a] =>
        let k := eval cbv in (N_of_ascii a - 48)%N in
        destruct (Hu k eq_refl) as [_ Hk]; cbn in Hk; cbn
    end;
    match goal with
    | |- Py.is_some ?o = true => destruct o; [reflexivity | contradiction]
    end.
Qed.

Lemma to_uint_not_nil (n : nat) : Nat.to_uint n <> Nil.
Proof.
  intro H. pose proof (DecimalNat.Unsigned.of_to n) as Hn. rewrite H in Hn.
  cbn in Hn. subst n. discriminate.
Qed.

Lemma lit_of_uint_not_nil (d : uint) :
  d <> Nil -> Py.lit (NilEmpty.string_of_uint d) <> [].
Proof. destruct d; [contradiction|..]; discriminate. Qed.

(** X6.  A decimal numeral of no more digits than [int] converts selects
    the camera with that index, leading zeros included, and a longer one
    raises [ValueError]; so it is for the index printed in decimal.  It is
    enough that the database gives the ASCII digits their values. *)
Theorem camera_index_round_trip (u : Py.UnicodeData) :
  ascii_digits u ->
  (forall d : uint,
      d <> Nil ->
      (Z.of_nat (length (Py.lit (NilEmpty.string_of_uint d)))
       <= Py.max_str_digits ->
       select_source u (Py.lit (NilEmpty.string_of_uint d))
       = inr (Camera (Z.of_nat (Nat.of_uint d))))
      /\ (Py.max_str_digits
          < Z.of_nat (length (Py.lit (NilEmpty.string_of_uint d))) ->
          select_source u (Py.lit (NilEmpty.string_of_uint d))
          = inl Py.ValueError))
  /\ (forall n : nat,
         (Z.of_nat (length (Py.of_nat n)) <= Py.max_str_digits ->
          select_source u (Py.of_nat n) = inr (Camera (Z.of_nat n)))
         /\ (Py.max_str_digits < Z.of_nat (length (Py.of_nat n)) ->
             select_source u (Py.of_nat n) = inl Py.ValueError)).
Proof.
  intro Hu.
  assert (H : forall d : uint,
             d <> Nil ->
             select_source u (Py.lit (NilEmpty.string_of_uint d))
             = if Py.max_str_digits
                  <? Z.of_nat (length (Py.lit (NilEmpty.string_of_uint d)))
               then inl Py.ValueError
               else inr (Camera (Z.of_nat (Nat.of_uint d)))).
  { intros d Hd. unfold select_source, Py.isdigit, Py.int.
    pose proof (lit_of_uint_not_nil d Hd) as Hne.
    pose proof (isdigit_of_uint u d Hu) as Hall.
    pose proof (int_digits_of_uint u d Hu 0) as Hint.
    destruct (Py.lit (NilEmpty.string_of_uint d)) as [|c s]; [contradiction|].
    rewrite Hall. change (Z.of_nat 0) with 0 in Hint. rewrite Hint.
    destruct (Py.max_str_digits <? Z.of_nat (length (c :: s))); reflexivity. }
  assert (Hd : forall d : uint,
             d <> Nil ->
             (Z.of_nat (length (Py.lit (NilEmpty.string_of_uint d)))
              <= Py.max_str_digits ->
              select_source u (Py.lit (NilEmpty.string_of_uint d))
              = inr (Camera (Z.of_nat (Nat.of_uint d))))
             /\ (Py.max_str_digits
                 < Z.of_nat (length (Py.lit (NilEmpty.string_of_uint d))) ->
                 select_source u (Py.lit (NilEmpty.string_of_uint d))
                 = inl Py.ValueError)).
  { intros d Hne. rewrite (H d Hne).
    destruct (Z.ltb_spec Py.max_str_digits
                (Z.of_nat (length (Py.lit (NilEmpty.string_of_uint d)))));
      split; intro; try reflexivity; lia. }
  split; [exact Hd|].
  intro n. unfold Py.of_nat.
  rewrite <- (DecimalNat.Unsigned.of_to n) at 3.
  exact (Hd _ (to_uint_not_nil n)).
Qed.

Lemma latin1_ascii_digits : ascii_digits Py.latin1.
Proof.
  intros d Hd. cbn [Py.ToDecimalDigit Py.ToDigit Py.latin1].
  replace ((48 <=? 48 + d)%N && (48 + d <=? 57)%N)%bool with true.
  - split; [f_equal; lia | discriminate].
  - symmetry. apply andb_true_iff. split; apply N.leb_le; lia.
Qed.

Lemma camera_index_round_trip_latin1 :
  select_source Py.latin1 (Py.lit "007") = inr (Camera 7)
  /\ select_source Py.latin1 (Py.of_nat 12) = inr (Camera 12).
Proof.
  destruct (camera_index_round_trip Py.latin1 latin1_ascii_digits) as [Hd Hn].
  split.
  - apply (Hd (D0 (D0 (D7 Nil))) ltac:(discriminate)).
    vm_compute. discriminate.
  - apply (Hn 12%nat). vm_compute. discriminate.
Defined.

Lemma int_digits_cases (u : Py.UnicodeData) (v : Py.str) :
  decimal_range u ->
  forall acc,
    0 <= acc ->
    match Py.int_digits u acc v with
    | inr n =>
        Forall (fun c => Py.ToDecimalDigit u c <> None) v
        /\ acc * 10 ^ Z.of_nat (length v) <= n
           < (acc + 1) * 10 ^ Z.of_nat (length v)
    | inl _ => Exists (fun c => Py.ToDecimalDigit u c = None) v
    end.
Proof.
  intro Hu. induction v as [|c v IH]; intros acc Hacc.
  - cbn. split; [constructor | lia].
  - cbn [Py.int_digits]. destruct (Py.ToDecimalDigit u c) as [d|] eqn:E.
    + pose proof (Hu c d E) as Hd. specialize (IH (10 * acc + d) ltac:(lia)).
      destruct (Py.int_digits u (10 * acc + d) v) as [e|n].
      * right. exact IH.
      * destruct IH as [Hall Hn]. split; [constructor; [congruence | exact Hall]|].
        cbn [length]. rewrite Nat2Z.inj_succ, Z.pow_succ_r by lia.
        pose proof (Z.pow_pos_nonneg 10 (Z.of_nat (length v)) ltac:(lia) ltac:(lia)).
        nia.
    + left. exact E.
Qed.

(** X7.  What the dispatch of lines 24-27 yields, case by case: a camera
    index only for a string that passes [isdigit], is decimal throughout
    and has no more digits than [int] converts, and then an index that is
    not negative and has no more digits than the string; a path only for a
    string that fails [isdigit], and then the string itself; a
    [ValueError] exactly for a string that passes [isdigit] and either has
    a character without a decimal value or is too long for [int]. *)
Theorem select_source_cases (u : Py.UnicodeData) (v : Py.str) :
  decimal_range u ->
  match select_source u v with
  | inr (Camera n) =>
      Py.isdigit u v = true
      /\ Forall (fun c => Py.ToDecimalDigit u c <> None) v
      /\ Z.of_nat (length v) <= Py.max_str_digits
      /\ 0 <= n < 10 ^ Z.of_nat (length v)
  | inr (File p) => p = v /\ Py.isdigit u v = false
  | inl _ =>
      Py.isdigit u v = true
      /\ (Exists (fun c => Py.ToDecimalDigit u c = None) v
          \/ Py.max_str_digits < Z.of_nat (length v))
  end.
Proof.
  intro Hu. unfold select_source.
  destruct (Py.isdigit u v) eqn:Hd; [|split; reflexivity].
  unfold Py.int. destruct v as [|c v]; [discriminate|].
  destruct (Z.ltb_spec Py.max_str_digits (Z.of_nat (length (c :: v))))
    as [Hlen|Hlen].
  - split; [reflexivity|]. right. exact Hlen.
  - pose proof (int_digits_cases u (c :: v) Hu 0 ltac:(lia)) as H.
    destruct (Py.int_digits u 0 (c :: v)) as [e|n].
    + split; [reflexivity|]. left. exact H.
    + destruct H as [Hall Hn]. split; [reflexivity|]. split; [exact Hall|].
      split; [exact Hlen | lia].
Qed.

Lemma latin1_decimal_range : decimal_range Py.latin1.
Proof.
  intros c d. cbn [Py.ToDecimalDigit Py.latin1].
  destruct ((48 <=? c)%N && (c <=? 57)%N)%bool eqn:E; [|discriminate].
  apply andb_true_iff in E. destruct E as [E1 E2].
  apply N.leb_le in E1. apply N.leb_le in E2.
  intro H. inversion H. lia.
Qed.

Lemma select_source_cases_long_numeral :
  select_source Py.latin1 (repeat 49%N 4301) = inl Py.ValueError
  /\ Py.isdigit Py.latin1 (repeat 49%N 4301) = true
  /\ Forall (fun c => Py.ToDecimalDigit Py.latin1 c <> None) (repeat 49%N 4301).
Proof.
  assert (E : select_source Py.latin1 (repeat 49%N 4301) = inl Py.ValueError)
    by (vm_compute; reflexivity).
  pose proof (select_source_cases Py.latin1 (repeat 49%N 4301)
                latin1_decimal_range) as H.
  rewrite E in H. split; [exact E|]. split; [exact (proj1 H)|].
  apply Forall_forall. intros c Hc. apply repeat_spec in Hc. subst c.
  discriminate.
Defined.

(** *** The preview, the console and the order of the calls *)

Section Further.

Context {cv : OpenCV}.
Variable ucd : Py.UnicodeData.

(** A property of traces that holds of the empty trace, of the events of
    every iteration, and of a concatenation when it holds of the parts,
    holds of the events of the loop. *)
Lemma loop_events_ind
    (a : Args) (w : World) (cap : Capture) (P : list Event -> Prop) :
  P [] ->
  (forall t1 t2, P t1 -> P t2 -> P (t1 ++ t2)) ->
  (forall c st, P (events (body a w cap c st))) ->
  forall fuel c st, P (fst (loop fuel a w cap c st)).
Proof.
  intros Hnil Happ Hbody fuel.
  induction fuel as [|fuel IH]; intros c st; cbn [loop]; [exact Hnil|].
  destruct (control (body a w cap c st)); [|apply Hbody].
  specialize (IH (cursor (body a w cap c st)) (locals (body a w cap c st))).
  destruct (loop fuel a w cap _ _) as [evs r]. cbn [fst] in *.
  apply Happ; [apply Hbody | exact IH].
Qed.

Lemma previews_app (t1 t2 : list Event) :
  previews (t1 ++ t2) = previews t1 ++ previews t2.
Proof.
  induction t1 as [|e t1 IH]; [reflexivity|].
  destruct e as [| | | | |win [img|m]| | | |]; simpl; rewrite ?IH; reflexivity.
Qed.

Lemma key_polls_app (t1 t2 : list Event) :
  key_polls (t1 ++ t2) = key_polls t1 ++ key_polls t2.
Proof.
  induction t1 as [|e t1 IH]; [reflexivity|].
  destruct e; simpl; rewrite ?IH; reflexivity.
Qed.

Lemma prints_app (t1 t2 : list Event) :
  prints (t1 ++ t2) = prints t1 ++ prints t2.
Proof.
  induction t1 as [|e t1 IH]; [reflexivity|].
  destruct e; simpl; rewrite ?IH; reflexivity.
Qed.

Lemma loop_preview (a : Args) (w : World) (cap : Capture) (fuel : nat) :
  forall c st, preview_follows_writes a (fst (loop fuel a w cap c st)).
Proof.
  apply loop_events_ind; unfold preview_follows_writes.
  - destruct (debug a); split; reflexivity.
  - intros t1 t2 [H1 H1'] [H2 H2'].
    rewrite previews_app, key_polls_app, writes_app, H1, H1', H2, H2'.
    destruct (debug a); [|split; reflexivity].
    rewrite length_app, repeat_app. split; reflexivity.
  - intros c st. destruct (read cap (reads c)) as [f|] eqn:E.
    + rewrite (body_read_ok _ _ _ _ _ _ E). cbn [events].
      destruct (debug a); split; reflexivity.
    + rewrite (body_read_failed _ _ _ _ _ E). cbn [events].
      destruct (debug a); split; reflexivity.
Qed.

Lemma prints_loop_events (t : list Event) :
  Forall (fun e => is_loop_event e = true) t -> prints t = [].
Proof.
  induction 1 as [|e t He _ IH]; [reflexivity|].
  destruct e; try discriminate; exact IH.
Qed.

Lemma in_loop_event (t : list Event) (e : Event) :
  Forall (fun e => is_loop_event e = true) t ->
  In e t -> is_loop_event e = true.
Proof. intros Hf Hin. rewrite Forall_forall in Hf. exact (Hf e Hin). Qed.

(** X2.  Under [--debug] the preview window shows exactly the frames that
    are written, as written, and the keyboard is polled once per written
    frame, for 30 ms; without it nothing is shown and no key is polled.
    [cv2.destroyAllWindows] is called exactly in a run under [--debug]
    that returns. *)
Theorem preview_shows_written_frames (fuel : nat) (a : Args) (w : World) :
  previews (fst (main ucd fuel a w))
  = (if debug a then writes (fst (main ucd fuel a w)) else [])
  /\ key_polls (fst (main ucd fuel a w))
     = (if debug a
        then repeat 30 (length (writes (fst (main ucd fuel a w))))
        else [])
  /\ (In EvDestroyAllWindows (fst (main ucd fuel a w))
      <-> debug a = true /\ snd (main ucd fuel a w) = Some Returned).
Proof.
  destruct (select_source ucd (video a)) as [e|src] eqn:Hs.
  - unfold main. rewrite Hs. cbn [fst snd].
    destruct (debug a);
      (split; [reflexivity|]; split; [reflexivity|];
       split; [intros [] | intros [_ Hx]; discriminate]).
  - destruct (isOpened (VideoCapture w src)) eqn:Ho.
    + destruct (main_trace ucd fuel a w src Hs Ho) as (evs & Hevs & Hl & Hm).
      destruct (loop_preview a w (VideoCapture w src) fuel start init_locals)
        as [Hp Hk]. rewrite <- Hevs in Hp, Hk.
      assert (Hd : ~ In EvDestroyAllWindows evs).
      { intro Hin. pose proof (in_loop_event _ _ Hl Hin). discriminate. }
      destruct Hm as [[Hm _]|[Hm _]]; rewrite Hm; cbn [fst snd].
      * split; [|split].
        -- simpl. exact Hp.
        -- simpl. exact Hk.
        -- split; [|intros [_ H]; discriminate].
           simpl. intros [H|[H|[H|H]]]; try discriminate. contradiction.
      * assert (He : previews (epilogue a) = [] /\ key_polls (epilogue a) = []
                     /\ writes (epilogue a) = []).
        { unfold epilogue. destruct (debug a); repeat split. }
        destruct He as (He1 & He2 & He3).
        split; [|split].
        -- simpl. rewrite previews_app, writes_app, He1, He3, !app_nil_r.
           exact Hp.
        -- simpl. rewrite key_polls_app, writes_app, He2, He3, !app_nil_r.
           exact Hk.
        -- simpl. unfold epilogue. split.
           ++ intros [H|[H|[H|H]]]; try discriminate.
              apply in_app_or in H. destruct H as [H|H]; [contradiction|].
              destruct (debug a); [split; reflexivity|].
              simpl in H. destruct H as [H|[H|[H|[]]]]; discriminate.
           ++ intros [Hdbg _]. rewrite Hdbg. right. right. right.
              apply in_or_app. right. simpl. auto.
    + rewrite (main_not_opened ucd a w src fuel Hs Ho). cbn [fst snd].
      destruct (debug a);
        (split; [reflexivity|]; split; [reflexivity|];
         split; [intros [Hx|[Hx|[]]]; discriminate
                | intros [_ Hx]; discriminate]).
Qed.

(** X10.  What a run prints is fixed by the way it ends: nothing when the
    dispatch raises, the error message alone when the source does not
    open, the "Tracking fish... press [Q] to stop." line alone while the
    loop is running (with or without [--debug]), and that line followed by
    the success message once [main] has returned. *)
Theorem console_output (fuel : nat) (a : Args) (w : World) :
  prints (fst (main ucd fuel a w))
  = match snd (main ucd fuel a w) with
    | Some (Uncaught _) => []
    | Some (SysExit _) => [msg_cannot_open (video a)]
    | None => [msg_tracking]
    | Some Returned => [msg_tracking; msg_finished (out a)]
    end.
Proof.
  destruct (select_source ucd (video a)) as [e|src] eqn:Hs.
  - unfold main. rewrite Hs. reflexivity.
  - destruct (isOpened (VideoCapture w src)) eqn:Ho.
    + destruct (main_trace ucd fuel a w src Hs Ho)
        as (evs & _ & Hl & [[Hm _]|[Hm _]]); rewrite Hm; cbn [fst snd]; simpl.
      * rewrite (prints_loop_events _ Hl). reflexivity.
      * rewrite prints_app, (prints_loop_events _ Hl). unfold epilogue.
        destruct (debug a); reflexivity.
    + rewrite (main_not_opened ucd a w src fuel Hs Ho). reflexivity.
Qed.

Lemma in_order_loop_events (w : World) (t tl : list Event) (h : Held) :
  Forall (fun e => is_loop_event e = true) t ->
  capture_open h = true ->
  writer_open h = true ->
  in_order w h (t ++ tl) = in_order w h tl.
Proof.
  intros Hf Hc Hw. induction Hf as [|e t He _ IH]; [reflexivity|].
  destruct e; try discriminate; simpl; rewrite ?Hc, ?Hw; exact IH.
Qed.

(** X3.  The calls of every run come in order: the capture is read only
    while it is open and the writer written only while it is open, the
    writer is created on an open capture, no handle is created twice, and
    a handle is released only while open, so never twice and never before
    its last use. *)
Theorem handles_used_only_while_open (fuel : nat) (a : Args) (w : World) :
  in_order w nothing_held (fst (main ucd fuel a w)) = true.
Proof.
  destruct (select_source ucd (video a)) as [e|src] eqn:Hs.
  - unfold main. rewrite Hs. reflexivity.
  - destruct (isOpened (VideoCapture w src)) eqn:Ho.
    + destruct (main_trace ucd fuel a w src Hs Ho)
        as (evs & _ & Hl & [[Hm _]|[Hm _]]); rewrite Hm; cbn [fst].
      * rewrite <- (app_nil_r evs). simpl. rewrite Ho. simpl.
        rewrite (in_order_loop_events w evs [] _ Hl); reflexivity.
      * simpl. rewrite Ho. simpl.
        rewrite (in_order_loop_events w evs _ _ Hl); try reflexivity.
        unfold epilogue. destruct (debug a); reflexivity.
    + rewrite (main_not_opened ucd a w src fuel Hs Ho). reflexivity.
Qed.

(** *** What the options change *)

Lemma main_frames_read (fuel : nat) (a : Args) (w : World) (src : Source) :
  select_source ucd (video a) = inr src ->
  isOpened (VideoCapture w src) = true ->
  frames_read (fst (main ucd fuel a w))
  = frames_read (fst (loop fuel a w (VideoCapture w src) start init_locals)).
Proof.
  intros Hs Ho.
  destruct (main_trace ucd fuel a w src Hs Ho) as (evs & -> & _ & [[Hm _]|[Hm _]]);
    rewrite Hm; simpl; [reflexivity|].
  rewrite frames_read_app. unfold epilogue.
  destruct (debug a); simpl; apply app_nil_r.
Qed.

Lemma stops_debug_eq (a a' : Args) (w : World) (cap : Capture) (j : nat) :
  debug a = debug a' -> stops a w cap j = stops a' w cap j.
Proof. intro Hd. unfold stops. rewrite Hd. reflexivity. Qed.

(** X4.  [--min-area] (and [--out]) change what is drawn and nothing
    else: two runs that differ in them read the same frames, write the
    same frames underneath the drawings, and end the same way. *)
Theorem min_area_only_changes_drawings
    (fuel : nat) (a a' : Args) (w : World) :
  video a = video a' ->
  debug a = debug a' ->
  snd (main ucd fuel a w) = snd (main ucd fuel a' w)
  /\ frames_read (fst (main ucd fuel a w))
     = frames_read (fst (main ucd fuel a' w))
  /\ map pixels (writes (fst (main ucd fuel a w)))
     = map pixels (writes (fst (main ucd fuel a' w))).
Proof.
  intros Hv Hd.
  destruct (select_source ucd (video a)) as [e|src] eqn:Hs.
  - unfold main. rewrite <- Hv, Hs. repeat split.
  - assert (Hs' : select_source ucd (video a') = inr src) by (rewrite <- Hv; exact Hs).
    destruct (isOpened (VideoCapture w src)) eqn:Ho.
    + assert (Hfr : frames_read (fst (main ucd fuel a w))
                    = frames_read (fst (main ucd fuel a' w))
                    /\ snd (main ucd fuel a w) = snd (main ucd fuel a' w)).
      { rewrite (main_frames_read fuel a w src Hs Ho),
          (main_frames_read fuel a' w src Hs' Ho).
        destruct (stop_within a w (VideoCapture w src) fuel)
          as [(n & Hn & Hst & Hb)|Hb].
        - assert (Hst' : stops a' w (VideoCapture w src) n = true)
            by (rewrite <- (stops_debug_eq a a' _ _ _ Hd); exact Hst).
          assert (Hb' : forall j, (j < n)%nat ->
                                  stops a' w (VideoCapture w src) j = false)
            by (intros j Hj; rewrite <- (stops_debug_eq a a' _ _ _ Hd);
                apply Hb, Hj).
          rewrite (main_stops_at ucd fuel a w src n Hs Ho Hb Hst Hn),
            (main_stops_at ucd fuel a' w src n Hs' Ho Hb' Hst' Hn).
          rewrite (loop_stops_at _ _ _ _ _ Hb Hst Hn),
            (loop_stops_at _ _ _ _ _ Hb' Hst' Hn).
          cbn [fst snd]. rewrite !frames_read_iterations. split; reflexivity.
        - assert (Hb' : forall j, (j < fuel)%nat ->
                                  stops a' w (VideoCapture w src) j = false)
            by (intros j Hj; rewrite <- (stops_debug_eq a a' _ _ _ Hd);
                apply Hb, Hj).
          rewrite (main_goes_on ucd fuel a w src Hs Ho Hb),
            (main_goes_on ucd fuel a' w src Hs' Ho Hb').
          rewrite (loop_goes_on _ _ _ _ Hb), (loop_goes_on _ _ _ _ Hb').
          cbn [fst snd]. rewrite !frames_read_iterations. split; reflexivity. }
      destruct Hfr as [Hfr Hsnd]. split; [exact Hsnd|]. split; [exact Hfr|].
      rewrite (main_writes ucd fuel a w src Hs Ho),
        (main_writes ucd fuel a' w src Hs' Ho), !loop_writes_frames_read.
      rewrite <- (main_frames_read fuel a w src Hs Ho),
        <- (main_frames_read fuel a' w src Hs' Ho). exact Hfr.
    + rewrite (main_not_opened ucd a w src fuel Hs Ho),
        (main_not_opened ucd a' w src fuel Hs' Ho). repeat split.
Qed.

Lemma annotated_min_area (a a' : Args) (bs : BackSub) (f : Frame) (n : nat) :
  min_area a = min_area a' -> annotated a bs f n = annotated a' bs f n.
Proof. intro H. unfold annotated, fish_in. rewrite H. reflexivity. Qed.

(** The locals in front of an iteration do not depend on [--debug], nor
    on the keys. *)
Lemma locals_state_at (a a' : Args) (w w' : World) (cap : Capture) (i : nat) :
  min_area a = min_area a' ->
  snd (state_at a w cap i) = snd (state_at a' w' cap i).
Proof.
  intro Hm. induction i as [|i IH]; [reflexivity|].
  pose proof (reads_state_at a w cap i) as Hr.
  pose proof (reads_state_at a' w' cap i) as Hr'.
  cbn [state_at].
  destruct (state_at a w cap i) as [c st].
  destruct (state_at a' w' cap i) as [c' st'].
  cbn [fst snd] in *. subst st'.
  destruct (read cap i) as [f|] eqn:E.
  - rewrite (body_read_ok a w cap c st f) by (rewrite Hr; exact E).
    rewrite (body_read_ok a' w' cap c' st f) by (rewrite Hr'; exact E).
    cbn [locals]. unfold fish_in.
    rewrite (annotated_min_area a a' _ _ _ Hm), Hm. reflexivity.
  - rewrite (body_read_failed a w cap c st) by (rewrite Hr; exact E).
    rewrite (body_read_failed a' w' cap c' st) by (rewrite Hr'; exact E).
    reflexivity.
Qed.

Lemma writes_iteration (a a' : Args) (w w' : World) (cap : Capture) (i : nat) :
  min_area a = min_area a' ->
  writes (events (iteration a w cap i))
  = writes (events (iteration a' w' cap i)).
Proof.
  intro Hm.
  pose proof (locals_state_at a a' w w' cap i Hm) as Hl.
  pose proof (reads_state_at a w cap i) as Hr.
  pose proof (reads_state_at a' w' cap i) as Hr'.
  unfold iteration.
  destruct (state_at a w cap i) as [c st].
  destruct (state_at a' w' cap i) as [c' st'].
  cbn [fst snd] in *. subst st'.
  destruct (read cap i) as [f|] eqn:E.
  - rewrite (writes_body_read_ok a w cap c st f) by (rewrite Hr; exact E).
    rewrite (writes_body_read_ok a' w' cap c' st f) by (rewrite Hr'; exact E).
    rewrite (annotated_min_area a a' _ _ _ Hm). reflexivity.
  - rewrite (body_read_failed a w cap c st) by (rewrite Hr; exact E).
    rewrite (body_read_failed a' w' cap c' st) by (rewrite Hr'; exact E).
    reflexivity.
Qed.

Lemma writes_iterations (a a' : Args) (w w' : World) (cap : Capture) (n : nat) :
  min_area a = min_area a' ->
  forall i,
    writes (iterations a w cap i n) = writes (iterations a' w' cap i n).
Proof.
  intro Hm. induction n as [|n IH]; intro i; [reflexivity|].
  cbn [iterations]. rewrite !writes_app, IH.
  rewrite (writes_iteration a a' w w' cap i Hm). reflexivity.
Qed.

Lemma iterations_app (a : Args) (w : World) (cap : Capture) (n k : nat) :
  forall i,
    iterations a w cap i (n + k)
    = iterations a w cap i n ++ iterations a w cap (i + n) k.
Proof.
  induction n as [|n IH]; intro i.
  - cbn [Nat.add iterations app]. rewrite Nat.add_0_r. reflexivity.
  - cbn [Nat.add iterations]. rewrite IH, <- app_assoc, Nat.add_succ_r.
    reflexivity.
Qed.

(** The frames a run writes are those of its first so many iterations. *)
Lemma main_writes_iterations
    (fuel : nat) (a : Args) (w : World) (src : Source) :
  select_source ucd (video a) = inr src ->
  isOpened (VideoCapture w src) = true ->
  exists m,
    (m <= fuel)%nat
    /\ writes (fst (main ucd fuel a w))
       = writes (iterations a w (VideoCapture w src) 0 m)
    /\ (forall j, (S j < m)%nat -> stops a w (VideoCapture w src) j = false)
    /\ (m = fuel
        \/ exists n, m = S n /\ stops a w (VideoCapture w src) n = true).
Proof.
  intros Hs Ho. rewrite (main_writes ucd fuel a w src Hs Ho).
  destruct (stop_within a w (VideoCapture w src) fuel)
    as [(n & Hn & Hst & Hb)|Hb].
  - exists (S n). rewrite (loop_stops_at _ _ _ _ _ Hb Hst Hn).
    split; [lia|]. split; [reflexivity|]. split.
    + intros j Hj. apply Hb. lia.
    + right. exists n. split; [reflexivity | exact Hst].
  - exists fuel. rewrite (loop_goes_on _ _ _ _ Hb).
    split; [lia|]. split; [reflexivity|]. split.
    + intros j Hj. apply Hb. lia.
    + left. reflexivity.
Qed.

(** X5.  The preview does not alter the output, it can only cut it
    short: with the same source and threshold, the frames written by a
    run, drawings included, are the first frames written by the run
    without [--debug]. *)
Theorem debug_only_cuts_output_short
    (fuel : nat) (a a' : Args) (w : World) :
  video a = video a' ->
  min_area a = min_area a' ->
  debug a' = false ->
  exists rest,
    writes (fst (main ucd fuel a' w))
    = writes (fst (main ucd fuel a w)) ++ rest.
Proof.
  intros Hv Hm Hd.
  destruct (select_source ucd (video a)) as [e|src] eqn:Hs.
  - exists []. unfold main. rewrite <- Hv, Hs. reflexivity.
  - assert (Hs' : select_source ucd (video a') = inr src)
      by (rewrite <- Hv; exact Hs).
    destruct (isOpened (VideoCapture w src)) eqn:Ho.
    + destruct (main_writes_iterations fuel a w src Hs Ho)
        as (m & Hmf & Hw & Hb & Hend).
      destruct (main_writes_iterations fuel a' w src Hs' Ho)
        as (m' & Hmf' & Hw' & Hb' & Hend').
      assert (Hle : (m <= m')%nat).
      { destruct Hend' as [->|(n' & -> & Hst')]; [exact Hmf|].
        destruct (Nat.le_gt_cases m (S n')) as [H|H]; [exact H|].
        exfalso. specialize (Hb n' H).
        unfold stops in Hst', Hb. rewrite Hd in Hst'.
        destruct (read (VideoCapture w src) n'); discriminate. }
      exists (writes (iterations a' w (VideoCapture w src) m (m' - m))).
      rewrite Hw, Hw'.
      replace m' with (m + (m' - m))%nat at 1 by lia.
      rewrite iterations_app, writes_app. cbn [Nat.add].
      rewrite (writes_iterations a a' w w (VideoCapture w src) m Hm 0).
      reflexivity.
    + exists []. rewrite (main_not_opened ucd a w src fuel Hs Ho),
        (main_not_opened ucd a' w src fuel Hs' Ho). reflexivity.
Qed.

End Further.

Lemma body_without_debug
    {cv : OpenCV} (a : Args) (w w' : World) (cap : Capture)
    (c : Cursor) (st : Locals) :
  debug a = false -> body a w cap c st = body a w' cap c st.
Proof.
  intro Hd. unfold body. destruct (read cap (reads c)); [|reflexivity].
  destruct (foreground (backSub st) f) as [bs fg].
  destruct (for_contours _ _ _) as [n img]. rewrite Hd. reflexivity.
Qed.

Lemma loop_without_debug
    {cv : OpenCV} (a : Args) (w w' : World) (cap : Capture) (fuel : nat) :
  debug a = false ->
  forall c st, loop fuel a w cap c st = loop fuel a w' cap c st.
Proof.
  intro Hd. induction fuel as [|fuel IH]; intros c st; [reflexivity|].
  cbn [loop]. rewrite (body_without_debug a w w' cap c st Hd).
  destruct (control (body a w' cap c st)); [|reflexivity].
  rewrite IH. reflexivity.
Qed.

(** X11.  Without [--debug] the keyboard has no influence: two worlds
    with the same sources give the same run, whatever keys are pressed. *)
Theorem keyboard_ignored_without_debug
    {cv : OpenCV} (u : Py.UnicodeData) (fuel : nat) (a : Args) (w w' : World) :
  debug a = false ->
  (forall src, VideoCapture w src = VideoCapture w' src) ->
  main u fuel a w = main u fuel a w'.
Proof.
  intros Hd Hw. unfold main.
  destruct (select_source u (video a)) as [e|src]; [reflexivity|].
  rewrite <- (Hw src).
  rewrite (loop_without_debug a w w' (VideoCapture w src) fuel Hd).
  reflexivity.
Qed.

Lemma keyboard_ignored_without_debug_clip :
  main Py.latin1 5 (Demo.args "a" false) Demo.world
  = main Py.latin1 5 (Demo.args "a" false)
      {| VideoCapture := VideoCapture Demo.world; waitKey := fun _ => 113 |}.
Proof.
  apply (keyboard_ignored_without_debug Py.latin1 5 (Demo.args "a" false)
           Demo.world
           {| VideoCapture := VideoCapture Demo.world;
              waitKey := fun _ => 113 |});
    [reflexivity | intro src; reflexivity].
Defined.

Lemma min_area_only_changes_drawings_clip :
  snd (main Py.latin1 5 (Demo.args "a" true) Demo.world)
  = snd (main Py.latin1 5
           {| video := Py.lit "a"; out := Py.lit "x.mp4";
              min_area := 5; debug := true |} Demo.world)
  /\ frames_read (fst (main Py.latin1 5 (Demo.args "a" true) Demo.world))
     = frames_read
         (fst (main Py.latin1 5
                 {| video := Py.lit "a"; out := Py.lit "x.mp4";
                    min_area := 5; debug := true |} Demo.world)).
Proof.
  destruct (min_area_only_changes_drawings Py.latin1 5 (Demo.args "a" true)
              {| video := Py.lit "a"; out := Py.lit "x.mp4";
                 min_area := 5; debug := true |} Demo.world eq_refl eq_refl)
    as (H1 & H2 & _).
  split; [exact H1 | exact H2].
Defined.

Lemma debug_only_cuts_output_short_camera :
  length (writes (fst (main Py.latin1 5 (Demo.args "0" true) Demo.world)))
  = 2%nat
  /\ length (writes (fst (main Py.latin1 5 (Demo.args "0" false) Demo.world)))
     = 5%nat
  /\ exists rest,
      writes (fst (main Py.latin1 5 (Demo.args "0" false) Demo.world))
      = writes (fst (main Py.latin1 5 (Demo.args "0" true) Demo.world))
          ++ rest.
Proof.
  split; [reflexivity|]. split; [reflexivity|].
  exact (debug_only_cuts_output_short Py.latin1 5 (Demo.args "0" true)
           (Demo.args "0" false) Demo.world eq_refl eq_refl eq_refl).
Defined.

Lemma writer_fps_never_zero_clip :
  (inject_Z (-1) < CAP_PROP_FPS Demo.clip)%Q /\ 1 <= writer_fps Demo.clip.
Proof.
  split; [reflexivity|].
  destruct (writer_fps_never_zero Demo.clip) as (_ & H & _).
  apply H. reflexivity.
Defined.
